(** * etherlime: the [Deployer] class (deployer/Deployer.js)

    A shallow embedding of the deployer and of the fragment of the JavaScript
    runtime it runs on: values, a store of mutable objects addressed by
    reference, exceptions (a rejected promise of the [async] method [deploy] is
    a thrown error here), and a log of the interactions with the outside
    world (console lines and calls into the wallet and the provider).

    What the deployer only calls, the [colors] helpers, the ethers library and
    the string to number conversion of the runtime, is gathered in the record
    [World]; every statement holds for every world. *)

From Stdlib Require Import ZArith.
From stdpp Require Import base option gmap strings list fin_maps.

Local Open Scope Z_scope.
Local Open Scope string_scope.
Local Open Scope list_scope.

(** ** Values and objects *)

(** Numbers are the integers and NaN: gas prices, gas limits and the status of
    a receipt are integers. *)
Inductive number :=
  | NaN
  | Int (z : Z).

Definition loc := positive.

Inductive value :=
  | VUndefined
  | VNull
  | VBool (b : bool)
  | VNum (n : number)
  | VStr (s : string)
  | VRef (l : loc).

#[global] Instance number_eq_dec : EqDecision number.
Proof. solve_decision. Defined.

#[global] Instance value_eq_dec : EqDecision value.
Proof. solve_decision. Defined.

(** An object is a bag of fields; [is_wallet] tells whether [Wallet.prototype]
    is on its prototype chain. *)
Record obj := Obj {
  is_wallet : bool;
  fields : gmap string value
}.

Definition empty_obj : obj := Obj false ∅.

(** What the engine or the outside world throws: [new Error(msg)], a
    [TypeError] of the engine, or a promise rejected by a collaborator. *)
Inductive error :=
  | JsError (msg : string)
  | TypeError
  | Rejected (reason : value).

Inductive outcome (A : Type) :=
  | Ret (a : A)
  | Throw (e : error).
Arguments Ret {A} a.
Arguments Throw {A} e.

(** ** The store and the log *)

Inductive event :=
  | EvLog (line : string)
  | EvSend (signer tx : value)
  | EvWait (client hash : value)
  | EvReceipt (client hash : value).

Record state := State {
  heap : gmap loc obj;
  trace : list event
}.

(** Every reference denotes an object: one the store does not list is the
    empty plain object. *)
Definition heap_get (h : gmap loc obj) (l : loc) : obj :=
  default empty_obj (h !! l).

Definition set_obj_field (o : obj) (k : string) (x : value) : obj :=
  Obj (is_wallet o) (<[k := x]> (fields o)).

(** [v.k]. A primitive has none of the fields the deployer reads
    (contractName, bytecode, abi, gasPrice, gasLimit, hash, status,
    transactionHash, contractAddress); [undefined] and [null] have no
    fields at all. *)
Definition read_field (h : gmap loc obj) (v : value) (k : string) : outcome value :=
  match v with
  | VUndefined | VNull => Throw TypeError
  | VRef l => Ret (default VUndefined (fields (heap_get h l) !! k))
  | _ => Ret VUndefined
  end.

(** ** A state and exception monad *)

Definition M (A : Type) : Type := state → outcome A * state.

Definition ret {A} (a : A) : M A := λ s, (Ret a, s).

Definition throw {A} (e : error) : M A := λ s, (Throw e, s).

Definition bind {A B} (m : M A) (k : A → M B) : M B :=
  λ s, match m s with
       | (Ret a, s') => k a s'
       | (Throw e, s') => (Throw e, s')
       end.

#[global] Instance M_ret : MRet M := @ret.
#[global] Instance M_bind : MBind M := λ A B k m, bind m k.

Definition get_field (v : value) (k : string) : M value :=
  λ s, (read_field (heap s) v k, s).

(** The store after the object at [l] took [x] as its field [k]. *)
Definition store_field (h : gmap loc obj) (l : loc) (k : string) (x : value) : gmap loc obj :=
  <[l := set_obj_field (heap_get h l) k x]> h.

(** [v.k = x] in strict mode (a class body is strict): only an object takes
    the field. *)
Definition set_field (v : value) (k : string) (x : value) : M unit :=
  λ s, match v with
       | VRef l => (Ret tt, State (store_field (heap s) l k x) (trace s))
       | _ => (Throw TypeError, s)
       end.

Definition emit (ev : event) : M unit :=
  λ s, (Ret tt, State (heap s) (trace s ++ [ev])).

Definition console_log (line : string) : M unit := emit (EvLog line).

(** A call into a collaborator: it may read and change the store, and it
    returns or throws. *)
Definition call_ext (f : gmap loc obj → outcome value * gmap loc obj) : M value :=
  λ s, let '(r, h') := f (heap s) in (r, State h' (trace s)).

(** [recv.method(...)]: [undefined] and [null] have no methods; the call is
    logged when it is made. *)
Definition method_call (recv : value) (ev : event)
    (f : gmap loc obj → outcome value * gmap loc obj) : M value :=
  match recv with
  | VUndefined | VNull => throw TypeError
  | _ => emit ev ;; call_ext f
  end.

(** [v instanceof Wallet] *)
Definition instanceof_Wallet (h : gmap loc obj) (v : value) : bool :=
  match v with
  | VRef l => is_wallet (heap_get h l)
  | _ => false
  end.

(** [a === b] on the values of the model. *)
Definition strict_eq (a b : value) : bool :=
  match a, b with
  | VNum NaN, _ | _, VNum NaN => false
  | _, _ => bool_decide (a = b)
  end.

(** ** The collaborators *)

Record World := {
  colorName : value → string;
  colorParams : list value → string;
  colorTransactionHash : value → string;
  colorFailure : value → string;
  colorAddress : value → string;
  (** the runtime's conversion of a string to a number *)
  StringToNumber : string → number;
  (** the number an object converts to, through the [valueOf] and
      [toString] of its class (Object, Array, ethers' BigNumber), or the
      error that conversion throws; the conversion is taken to read and
      change nothing in the store *)
  ObjectToNumber : loc → outcome number;
  (** [ethers.Contract.getDeployTransaction(bytecode, abi, ...args)] *)
  getDeployTransaction :
    value → value → list value → gmap loc obj → outcome value * gmap loc obj;
  (** [wallet.sendTransaction(tx)], awaited *)
  sendTransaction : value → value → gmap loc obj → outcome value * gmap loc obj;
  (** [provider.waitForTransaction(hash)], awaited *)
  waitForTransaction : value → value → gmap loc obj → outcome value * gmap loc obj;
  (** [provider.getTransactionReceipt(hash)], awaited *)
  getTransactionReceipt : value → value → gmap loc obj → outcome value * gmap loc obj
}.

(** ** Comparisons with zero *)

(** ToNumber. A primitive always converts; an object converts as its class
    has it, which may throw. *)
Definition ToNumber (W : World) (v : value) : outcome number :=
  match v with
  | VUndefined => Ret NaN
  | VNull => Ret (Int 0)
  | VBool b => Ret (Int (if b then 1 else 0))
  | VNum n => Ret n
  | VStr s => Ret (StringToNumber W s)
  | VRef l => ObjectToNumber W l
  end.

(** [v > 0] is [true]: [v] converts, to a number above zero. *)
Definition gt_zero (W : World) (v : value) : bool :=
  match ToNumber W v with
  | Ret (Int z) => (0 <? z)%Z
  | _ => false
  end.

(** [v <= 0] is [true]: [v] converts, to a number that is not above zero. *)
Definition le_zero (W : World) (v : value) : bool :=
  match ToNumber W v with
  | Ret (Int z) => (z <=? 0)%Z
  | _ => false
  end.

(** Evaluating [v > 0]: its truth value, or the error of the conversion. *)
Definition compare_gt_zero (W : World) (v : value) : M bool :=
  λ s, (match ToNumber W v with
        | Ret _ => Ret (gt_zero W v)
        | Throw e => Throw e
        end, s).

(** ** The deployer *)

(** An instance of the class: the three fields its constructor sets. *)
Record Deployer := {
  wallet : value;
  provider : value;
  defaultOverrides : value
}.

(** The error of the constructor (the spec's InvalidIdentity). *)
Definition InvalidIdentity : error :=
  JsError "Passed wallet is not instance of ethers Wallet".

(** [constructor(wallet, provider, defaultOverrides)]: the check, then
    [this.wallet.provider = provider], a write to the caller's wallet. *)
Definition constructor (wallet0 provider0 defaultOverrides0 : value) : M Deployer :=
  λ s,
    if negb (instanceof_Wallet (heap s) wallet0) then throw InvalidIdentity s
    else
      (set_field wallet0 "provider" provider0 ;;
       ret {| wallet := wallet0; provider := provider0;
              defaultOverrides := defaultOverrides0 |}) s.

Section Deploy.

Context (W : World).

(** The line feed that opens the first log line. *)
Definition newline : string := String (Ascii.ascii_of_nat 10) "".

(** [_preValidateArguments]: one console line. *)
Definition _preValidateArguments (this : Deployer) (contract : value)
    (deploymentArguments : list value) : M unit :=
  name ← get_field contract "contractName";
  let deployContractStart := newline +:+ "Deploying contract: " +:+ colorName W name in
  let argumentsEnd :=
    if (length deploymentArguments =? 0)%nat then ""
    else " with arguments: " +:+ colorParams W deploymentArguments in
  console_log (deployContractStart +:+ argumentsEnd).

(** [_prepareDeployTransaction]: the transaction is built by ethers. *)
Definition _prepareDeployTransaction (this : Deployer) (contract : value)
    (deploymentArguments : list value) : M value :=
  bytecode ← get_field contract "bytecode";
  abi ← get_field contract "abi";
  call_ext (getDeployTransaction W bytecode abi deploymentArguments).

(** [_overrideDeployTransactionConfig]: the early return on [undefined],
    the gasPrice check, the gasLimit check; each check reads the override
    for the test and again for the assignment. *)
Definition _overrideDeployTransactionConfig (this : Deployer)
    (deployTransaction : value) : M value :=
  if strict_eq (defaultOverrides this) VUndefined then ret deployTransaction
  else
    gasPrice ← get_field (defaultOverrides this) "gasPrice";
    above ← compare_gt_zero W gasPrice;
    (if (above : bool) then
       x ← get_field (defaultOverrides this) "gasPrice";
       set_field deployTransaction "gasPrice" x
     else ret tt) ;;
    gasLimit ← get_field (defaultOverrides this) "gasLimit";
    above ← compare_gt_zero W gasLimit;
    (if (above : bool) then
       x ← get_field (defaultOverrides this) "gasLimit";
       set_field deployTransaction "gasLimit" x
     else ret tt) ;;
    ret deployTransaction.

(** [_sendDeployTransaction]: [this.wallet.sendTransaction(tx)]. *)
Definition _sendDeployTransaction (this : Deployer) (deployTransaction : value) : M value :=
  method_call (wallet this) (EvSend (wallet this) deployTransaction)
    (sendTransaction W (wallet this) deployTransaction).

(** [_waitForDeployTransaction]: a console line, then
    [this.provider.waitForTransaction(transaction.hash)]. *)
Definition _waitForDeployTransaction (this : Deployer) (transaction : value) : M unit :=
  h ← get_field transaction "hash";
  console_log ("Waiting for transaction to be included in block and mined: "
               +:+ colorTransactionHash W h) ;;
  h' ← get_field transaction "hash";
  method_call (provider this) (EvWait (provider this) h')
    (waitForTransaction W (provider this) h') ;;
  ret tt.

(** [_getTransactionReceipt]:
    [this.provider.getTransactionReceipt(transaction.hash)]. *)
Definition _getTransactionReceipt (this : Deployer) (transaction : value) : M value :=
  h ← get_field transaction "hash";
  method_call (provider this) (EvReceipt (provider this) h)
    (getTransactionReceipt W (provider this) h).

(** The error of a receipt whose status is [0] (the spec's
    DeploymentReverted); its message carries the receipt's transaction
    hash. *)
Definition DeploymentReverted (transactionHash : value) : error :=
  JsError ("Transaction " +:+ colorTransactionHash W transactionHash +:+ " "
           +:+ colorFailure W (VStr "failed")
           +:+ ". Please check etherscan for better reason explanation.").

(** [_postValidateTransaction]: throws when [status === 0]. *)
Definition _postValidateTransaction (this : Deployer)
    (contract transaction transactionReceipt : value) : M unit :=
  status ← get_field transactionReceipt "status";
  if strict_eq status (VNum (Int 0)) then
    h ← get_field transactionReceipt "transactionHash";
    throw (DeploymentReverted h)
  else ret tt.

(** [_generateDeploymentResult]: a console line, then the receipt's
    contractAddress. *)
Definition _generateDeploymentResult (this : Deployer)
    (contract transaction transactionReceipt : value) : M value :=
  name ← get_field contract "contractName";
  address ← get_field transactionReceipt "contractAddress";
  console_log ("Contract " +:+ colorName W name +:+ " deployed at address: "
               +:+ colorAddress W address) ;;
  get_field transactionReceipt "contractAddress".

(** [deploy(contract, ...deploymentArguments)]: the arguments after the
    first are the constructor arguments of the contract. *)
Definition deploy (this : Deployer) (contract : value)
    (deploymentArguments : list value) : M value :=
  _preValidateArguments this contract deploymentArguments ;;
  deployTransaction ← _prepareDeployTransaction this contract deploymentArguments;
  overridden ← _overrideDeployTransactionConfig this deployTransaction;
  transaction ← _sendDeployTransaction this overridden;
  _waitForDeployTransaction this transaction ;;
  transactionReceipt ← _getTransactionReceipt this transaction;
  _postValidateTransaction this contract transaction transactionReceipt ;;
  _generateDeploymentResult this contract transaction transactionReceipt.

End Deploy.

(** ** Reading the pipeline in parts *)

(** The own field [k] of the object at [l], if it has one. *)
Definition own_field (h : gmap loc obj) (l : loc) (k : string) : option value :=
  fields (heap_get h l) !! k.

(** One of the two checks of [_overrideDeployTransactionConfig]. *)
Definition apply_gas (W : World) (this : Deployer) (deployTransaction : value)
    (k : string) : M unit :=
  g ← get_field (defaultOverrides this) k;
  above ← compare_gt_zero W g;
  if (above : bool) then
    x ← get_field (defaultOverrides this) k;
    set_field deployTransaction k x
  else ret tt.

(** The store after that check, for a transaction object at [lt]; a check
    that throws has written nothing. *)
Definition after_gas (W : World) (overrides : value) (lt : loc) (k : string)
    (h : gmap loc obj) : gmap loc obj :=
  match read_field h overrides k with
  | Ret g => if gt_zero W g then store_field h lt k g else h
  | Throw _ => h
  end.

(** [deploy] up to the built transaction, ... *)
Definition deploy_until_built (W : World) (this : Deployer) (contract : value)
    (deploymentArguments : list value) : M value :=
  _preValidateArguments W this contract deploymentArguments ;;
  _prepareDeployTransaction W this contract deploymentArguments.

(** ... from the transaction that is submitted, ... *)
Definition deploy_from_submission (W : World) (this : Deployer)
    (contract submitted : value) : M value :=
  transaction ← _sendDeployTransaction W this submitted;
  _waitForDeployTransaction W this transaction ;;
  transactionReceipt ← _getTransactionReceipt W this transaction;
  _postValidateTransaction W this contract transaction transactionReceipt ;;
  _generateDeploymentResult W this contract transaction transactionReceipt.

(** ... and up to the fetched receipt. *)
Definition deploy_until_receipt (W : World) (this : Deployer) (contract : value)
    (deploymentArguments : list value) : M (value * value) :=
  _preValidateArguments W this contract deploymentArguments ;;
  deployTransaction ← _prepareDeployTransaction W this contract deploymentArguments;
  overridden ← _overrideDeployTransactionConfig W this deployTransaction;
  transaction ← _sendDeployTransaction W this overridden;
  _waitForDeployTransaction W this transaction ;;
  transactionReceipt ← _getTransactionReceipt W this transaction;
  ret (transaction, transactionReceipt).

(** The events a run added to the log. *)
Definition events_since (s s' : state) : list event :=
  drop (length (trace s)) (trace s').

Definition is_send (ev : event) : bool :=
  match ev with EvSend _ _ => true | _ => false end.

Definition is_receipt (ev : event) : bool :=
  match ev with EvReceipt _ _ => true | _ => false end.

Definition count_events (f : event → bool) (evs : list event) : nat :=
  length (filter (λ ev, f ev = true) evs).

(** Events that are neither a submission nor a receipt fetch. *)
Definition silent (evs : list event) : Prop :=
  count_events is_send evs = 0%nat ∧ count_events is_receipt evs = 0%nat.

(** A computation that only adds such events to the log. *)
Definition quiet {A} (m : M A) : Prop :=
  ∀ s, ∃ evs, trace (m s).2 = trace s ++ evs ∧ silent evs.

(** A computation that submits at most once, fetches a receipt only after
    a submission, and has done both once when it returns. *)
Definition submits_once {A} (m : M A) : Prop :=
  ∀ s, ∃ evs,
    trace (m s).2 = trace s ++ evs
    ∧ (count_events is_receipt evs ≤ count_events is_send evs ≤ 1)%nat
    ∧ (∀ a, (m s).1 = Ret a →
            count_events is_send evs = 1%nat ∧ count_events is_receipt evs = 1%nat).

(** A computation that submits nothing, fetches at most one receipt, and
    has fetched it when it returns. *)
Definition fetches_once {A} (m : M A) : Prop :=
  ∀ s, ∃ evs,
    trace (m s).2 = trace s ++ evs
    ∧ count_events is_send evs = 0%nat
    ∧ (count_events is_receipt evs ≤ 1)%nat
    ∧ (∀ a, (m s).1 = Ret a → count_events is_receipt evs = 1%nat).

(** Transactions submitted and receipts fetched by one [deploy]. *)
Definition submissions (W : World) (this : Deployer) (contract : value)
    (deploymentArguments : list value) (s : state) : nat :=
  count_events is_send (events_since s (deploy W this contract deploymentArguments s).2).

Definition receipts (W : World) (this : Deployer) (contract : value)
    (deploymentArguments : list value) (s : state) : nat :=
  count_events is_receipt (events_since s (deploy W this contract deploymentArguments s).2).

(** ** A small world to run the deployer in *)

Module Sample.

Definition show (v : value) : string :=
  match v with
  | VStr s => s
  | _ => "?"
  end.

Fixpoint digits (s : string) (acc : Z) : number :=
  match s with
  | EmptyString => Int acc
  | String c r =>
      let n := Z.of_nat (Ascii.nat_of_ascii c) in
      if ((48 <=? n) && (n <=? 57))%Z then digits r (10 * acc + (n - 48))%Z else NaN
  end.

Definition alloc (h : gmap loc obj) (o : obj) : value * gmap loc obj :=
  let l := fresh (dom h) in (VRef l, <[l := o]> h).

(** A chain on which every deployment is mined at ["0xABC"] with the given
    receipt status; its objects are plain ones, which convert to NaN. *)
Definition world (status : Z) : World := {|
  colorName := show;
  colorParams := λ args, String.concat ", " (show <$> args);
  colorTransactionHash := show;
  colorFailure := show;
  colorAddress := show;
  StringToNumber := λ s, digits s 0;
  ObjectToNumber := λ l, Ret NaN;
  getDeployTransaction := λ bytecode abi args h,
    match bytecode with
    | VStr _ =>
        let '(tx, h') :=
          alloc h (Obj false {[ "data" := bytecode; "gasLimit" := VNum (Int 1500000) ]})
        in (Ret tx, h')
    | _ => (Throw (JsError "invalid bytecode"), h)
    end;
  sendTransaction := λ signer tx h,
    let '(t, h') := alloc h (Obj false {[ "hash" := VStr "0x7e57" ]}) in (Ret t, h');
  waitForTransaction := λ client hash h, (Ret VUndefined, h);
  getTransactionReceipt := λ client hash h,
    let '(r, h') :=
      alloc h (Obj false {[ "status" := VNum (Int status);
                            "contractAddress" := VStr "0xABC";
                            "transactionHash" := hash ]})
    in (Ret r, h')
|}.

(** The store of the caller: a wallet at 1, a provider at 2, the compiled
    contract at 3, the overrides [{gasPrice: 5, gasLimit: 0}] at 4, an
    empty object at 5, the overrides [{gasPrice: 0, gasLimit: -3}] at 6 and
    a transaction with both gas fields at 7. *)
Definition store : gmap loc obj :=
  {[ 1%positive := Obj true {[ "privateKey" := VStr "0x01" ]};
     2%positive := Obj false {[ "url" := VStr "http://localhost:8545" ]};
     3%positive := Obj false {[ "contractName" := VStr "Token";
                                "abi" := VStr "constructor(uint256)";
                                "bytecode" := VStr "0x600a" ]};
     4%positive := Obj false {[ "gasPrice" := VNum (Int 5);
                                "gasLimit" := VNum (Int 0) ]};
     5%positive := empty_obj;
     6%positive := Obj false {[ "gasPrice" := VNum (Int 0);
                                "gasLimit" := VNum (Int (-3)) ]};
     7%positive := Obj false {[ "data" := VStr "0x600a";
                                "gasPrice" := VNum (Int 20);
                                "gasLimit" := VNum (Int 1500000) ]} ]}.

Definition start : state := State store [].

Definition deployer (overrides : value) : Deployer :=
  {| wallet := VRef 1%positive; provider := VRef 2%positive;
     defaultOverrides := overrides |}.

End Sample.

(** ** More parts of the pipeline, and worlds that fail *)

(** [undefined] and [null], the values without fields or methods. *)
Definition nullish (v : value) : bool :=
  match v with
  | VUndefined | VNull => true
  | _ => false
  end.

Definition is_wait (ev : event) : bool :=
  match ev with EvWait _ _ => true | _ => false end.

(** [deploy] up to the transaction that is about to be submitted, ... *)
Definition deploy_until_overridden (W : World) (this : Deployer) (contract : value)
    (deploymentArguments : list value) : M value :=
  _preValidateArguments W this contract deploymentArguments ;;
  deployTransaction ← _prepareDeployTransaction W this contract deploymentArguments;
  _overrideDeployTransactionConfig W this deployTransaction.

(** ... and up to the transaction the wallet returned. *)
Definition deploy_until_sent (W : World) (this : Deployer) (contract : value)
    (deploymentArguments : list value) : M value :=
  submitted ← deploy_until_overridden W this contract deploymentArguments;
  _sendDeployTransaction W this submitted.

Module Faulty.

(** The sample chain with another wallet and provider behaviour. *)
Definition variant (send wait fetch : value → value → gmap loc obj →
                                      outcome value * gmap loc obj) : World := {|
  colorName := colorName (Sample.world 1);
  colorParams := colorParams (Sample.world 1);
  colorTransactionHash := colorTransactionHash (Sample.world 1);
  colorFailure := colorFailure (Sample.world 1);
  colorAddress := colorAddress (Sample.world 1);
  StringToNumber := StringToNumber (Sample.world 1);
  ObjectToNumber := ObjectToNumber (Sample.world 1);
  getDeployTransaction := getDeployTransaction (Sample.world 1);
  sendTransaction := send;
  waitForTransaction := wait;
  getTransactionReceipt := fetch
|}.

(** The wallet cannot pay. *)
Definition rejecting : World :=
  variant (λ signer tx h, (Throw (Rejected (VStr "insufficient funds")), h))
          (waitForTransaction (Sample.world 1))
          (getTransactionReceipt (Sample.world 1)).

(** The provider gives up waiting. *)
Definition stalling : World :=
  variant (sendTransaction (Sample.world 1))
          (λ client hash h, (Throw (Rejected (VStr "timeout")), h))
          (getTransactionReceipt (Sample.world 1)).

(** The provider knows no receipt for the transaction. *)
Definition unmined : World :=
  variant (sendTransaction (Sample.world 1))
          (waitForTransaction (Sample.world 1))
          (λ client hash h, (Ret VNull, h)).

(** A receipt without status and without contractAddress. *)
Definition bare : World :=
  variant (sendTransaction (Sample.world 1))
          (waitForTransaction (Sample.world 1))
          (λ client hash h,
             let '(r, h') := Sample.alloc h (Obj false {[ "transactionHash" := hash ]})
             in (Ret r, h')).

(** The provider fails to deliver the receipt. *)
Definition losing : World :=
  variant (sendTransaction (Sample.world 1))
          (waitForTransaction (Sample.world 1))
          (λ client hash h, (Throw (Rejected (VStr "network error")), h)).

(** A deployer whose provider was left out. *)
Definition without_provider : Deployer :=
  {| wallet := VRef 1%positive; provider := VUndefined;
     defaultOverrides := VUndefined |}.

End Faulty.

Module Numeric.

(** The store of the caller with a number object at 20 (a BigNumber of
    ethers for 5), the overrides [{gasPrice: <20>, gasLimit: 0}] at 21, an
    object without a primitive value at 22 and the overrides
    [{gasPrice: <22>, gasLimit: 7}] at 23. *)
Definition store : gmap loc obj :=
  <[20%positive := Obj false {[ "_hex" := VStr "0x05" ]}]>
  (<[21%positive := Obj false {[ "gasPrice" := VRef 20%positive;
                                 "gasLimit" := VNum (Int 0) ]}]>
  (<[22%positive := empty_obj]>
  (<[23%positive := Obj false {[ "gasPrice" := VRef 22%positive;
                                 "gasLimit" := VNum (Int 7) ]}]>
   Sample.store))).

Definition start : state := State store [].

(** The sample chain, where the object at 20 converts to 5 and the
    conversion of the object at 22 throws. *)
Definition world : World := {|
  colorName := colorName (Sample.world 1);
  colorParams := colorParams (Sample.world 1);
  colorTransactionHash := colorTransactionHash (Sample.world 1);
  colorFailure := colorFailure (Sample.world 1);
  colorAddress := colorAddress (Sample.world 1);
  StringToNumber := StringToNumber (Sample.world 1);
  ObjectToNumber := λ l,
    if decide (l = 20%positive) then Ret (Int 5)
    else if decide (l = 22%positive) then Throw TypeError
    else Ret NaN;
  getDeployTransaction := getDeployTransaction (Sample.world 1);
  sendTransaction := sendTransaction (Sample.world 1);
  waitForTransaction := waitForTransaction (Sample.world 1);
  getTransactionReceipt := getTransactionReceipt (Sample.world 1)
|}.

End Numeric.

(** ** The store *)

Section Store.

Implicit Types (h : gmap loc obj) (l : loc) (k : string) (x : value).

Lemma heap_get_insert h l (o : obj) l' :
  heap_get (<[l := o]> h) l' = if decide (l = l') then o else heap_get h l'.
Proof.
  unfold heap_get. rewrite lookup_insert. by case_decide.
Qed.

Lemma heap_get_store_field h l k x l' :
  heap_get (store_field h l k x) l'
  = if decide (l = l') then set_obj_field (heap_get h l) k x else heap_get h l'.
Proof. apply heap_get_insert. Qed.

Lemma own_field_store_field h l k x l' k' :
  own_field (store_field h l k x) l' k'
  = if decide (l = l' ∧ k = k') then Some x else own_field h l' k'.
Proof.
  unfold own_field. rewrite heap_get_store_field.
  destruct (decide (l = l')) as [->|Hl]; simpl.
  - rewrite lookup_insert. destruct (decide (k = k')) as [->|Hk].
    + by rewrite decide_True.
    + rewrite decide_False; [done | by intros [_ ?]].
  - rewrite decide_False; [done | by intros [? _]].
Qed.

Lemma is_wallet_store_field h l k x l' :
  is_wallet (heap_get (store_field h l k x) l') = is_wallet (heap_get h l').
Proof.
  rewrite heap_get_store_field. by destruct (decide (l = l')) as [->|].
Qed.

Lemma store_field_twice h l k x y :
  store_field (store_field h l k x) l k y = store_field h l k y.
Proof.
  unfold store_field. rewrite heap_get_insert, decide_True by done.
  rewrite insert_insert_eq. f_equal.
  unfold set_obj_field; simpl. by rewrite insert_insert_eq.
Qed.

Lemma store_field_swap h l k1 k2 x y :
  k1 ≠ k2 →
  store_field (store_field h l k1 x) l k2 y = store_field (store_field h l k2 y) l k1 x.
Proof.
  intros Hk. unfold store_field.
  rewrite !heap_get_insert, !decide_True by done.
  rewrite !insert_insert_eq. f_equal.
  unfold set_obj_field; simpl. f_equal. by apply insert_insert_ne.
Qed.

Lemma read_field_ref h l k :
  read_field h (VRef l) k = Ret (default VUndefined (own_field h l k)).
Proof. reflexivity. Qed.

Lemma read_field_throw h (v : value) k (e : error) :
  read_field h v k = Throw e → e = TypeError ∧ (v = VUndefined ∨ v = VNull).
Proof. destruct v; simpl; intros H; try discriminate H; injection H as <-; eauto. Qed.

Lemma read_field_ret_other h (v : value) k k' (g : value) :
  read_field h v k = Ret g → ∃ g', read_field h v k' = Ret g'.
Proof. destruct v; simpl; intros H; try discriminate H; eauto. Qed.

End Store.

(** ** The monad *)

Lemma run_bind {A B} (m : M A) (k : A → M B) (s : state) :
  (m ≫= k) s
  = match m s with
    | (Ret a, s') => k a s'
    | (Throw e, s') => (Throw e, s')
    end.
Proof. reflexivity. Qed.

Lemma state_eta (s : state) : State (heap s) (trace s) = s.
Proof. by destruct s. Qed.

(** Run a pipeline one step: split on the innermost outcome that a bind
    is waiting for. *)
Ltac run_step :=
  rewrite ?run_bind;
  match goal with
  | |- context [match ?x with (_, _) => _ end] =>
      lazymatch x with
      | context [match _ with (_, _) => _ end] => fail
      | _ => destruct x as [[?|?] ?] eqn:?
      end
  end.

(** ** Applying the overrides *)

Section Overrides.

Context (W : World).
Implicit Types (this : Deployer) (h : gmap loc obj) (lt : loc) (k : string).

Lemma strict_eq_undefined (v : value) :
  strict_eq v VUndefined = true ↔ v = VUndefined.
Proof.
  destruct v as [| |b|[|z]|s|l]; simpl; split; try done;
    intros H; by apply bool_decide_eq_true in H.
Qed.

Lemma gt_zero_int (z : Z) : gt_zero W (VNum (Int z)) = bool_decide (0 < z)%Z.
Proof.
  unfold gt_zero; simpl. destruct (Z.ltb_spec 0 z).
  - by rewrite bool_decide_eq_true_2.
  - rewrite bool_decide_eq_false_2; [done | lia].
Qed.

Lemma le_zero_not_gt (v : value) : le_zero W v = true → gt_zero W v = false.
Proof.
  unfold le_zero, gt_zero. destruct (ToNumber W v) as [[|z]|e]; try done.
  intros H. apply Z.leb_le in H. apply Z.ltb_ge. lia.
Qed.

Lemma gt_zero_throw (v : value) (e : error) :
  ToNumber W v = Throw e → gt_zero W v = false.
Proof. intros H. unfold gt_zero. by rewrite H. Qed.

Lemma after_gas_throw (o : value) lt k h (g : value) (e : error) :
  read_field h o k = Ret g → ToNumber W g = Throw e → after_gas W o lt k h = h.
Proof.
  intros Hg He. unfold after_gas. by rewrite Hg, (gt_zero_throw _ _ He).
Qed.

(** One check, on a transaction that is an object: it fails only when the
    override does not convert to a number. *)
Lemma apply_gas_ref this lt k (s : state) (g : value) :
  read_field (heap s) (defaultOverrides this) k = Ret g →
  apply_gas W this (VRef lt) k s
  = (match ToNumber W g with
     | Ret _ => Ret tt
     | Throw e => Throw e
     end,
     State (after_gas W (defaultOverrides this) lt k (heap s)) (trace s)).
Proof.
  intros Hg. unfold apply_gas, after_gas, get_field, compare_gt_zero.
  rewrite run_bind, Hg, run_bind.
  destruct (ToNumber W g) as [n|e] eqn:Hn.
  - destruct (gt_zero W g); [| by rewrite state_eta].
    by rewrite run_bind, Hg.
  - by rewrite (gt_zero_throw _ _ Hn), state_eta.
Qed.

(** The overrides are read the same before and after a check: the check
    writes to the transaction what it read from the overrides. *)
Lemma read_after_gas (o : value) lt k h k' :
  read_field (after_gas W o lt k h) o k' = read_field h o k'.
Proof.
  unfold after_gas. destruct (read_field h o k) as [g|e] eqn:Hg; [| done].
  destruct (gt_zero W g) eqn:Hgt; [| done].
  destruct o as [| |b|n|s|lo]; try done.
  rewrite !read_field_ref, own_field_store_field.
  destruct (decide (lt = lo ∧ k = k')) as [[-> <-]|]; [| done].
  rewrite read_field_ref in Hg. injection Hg as <-.
  destruct (own_field h lo k) as [x|] eqn:Hx; [done |].
  simpl in Hgt. discriminate Hgt.
Qed.

Lemma own_field_after_gas (o : value) lt k h (g : value) l' k' :
  read_field h o k = Ret g →
  own_field (after_gas W o lt k h) l' k'
  = if decide (lt = l' ∧ k = k') then
      (if gt_zero W g then Some g else own_field h l' k')
    else own_field h l' k'.
Proof.
  intros Hg. unfold after_gas. rewrite Hg.
  destruct (gt_zero W g).
  - apply own_field_store_field.
  - by destruct (decide (lt = l' ∧ k = k')).
Qed.

Lemma is_wallet_after_gas (o : value) lt k h l' :
  is_wallet (heap_get (after_gas W o lt k h) l') = is_wallet (heap_get h l').
Proof.
  unfold after_gas. destruct (read_field h o k) as [g|e]; [| done].
  destruct (gt_zero W g); [apply is_wallet_store_field | done].
Qed.

Lemma heap_get_after_gas (o : value) lt k h l' :
  l' ≠ lt → heap_get (after_gas W o lt k h) l' = heap_get h l'.
Proof.
  intros Hl. unfold after_gas. destruct (read_field h o k) as [g|e]; [| done].
  destruct (gt_zero W g); [| done].
  rewrite heap_get_store_field. by rewrite decide_False.
Qed.

(** The step, in the order of the source: the early return, then the
    gasPrice check, then the gasLimit check. *)
Lemma override_steps this (tx : value) (s : state) :
  _overrideDeployTransactionConfig W this tx s
  = if strict_eq (defaultOverrides this) VUndefined then (Ret tx, s)
    else (apply_gas W this tx "gasPrice" ;;
          apply_gas W this tx "gasLimit" ;;
          ret tx) s.
Proof.
  unfold _overrideDeployTransactionConfig.
  destruct (strict_eq (defaultOverrides this) VUndefined); [done |].
  unfold apply_gas.
  repeat first
    [ done
    | run_step
    | match goal with |- context [if ?b then _ else _] => is_var b; destruct b end ].
Qed.

(** Closed form of the step for overrides that can be read and a
    transaction that is an object: it stops at the first override that
    does not convert. *)
Lemma override_ref this lt (s : state) (gp gl : value) :
  read_field (heap s) (defaultOverrides this) "gasPrice" = Ret gp →
  read_field (heap s) (defaultOverrides this) "gasLimit" = Ret gl →
  _overrideDeployTransactionConfig W this (VRef lt) s
  = match ToNumber W gp with
    | Throw e => (Throw e, s)
    | Ret _ =>
        match ToNumber W gl with
        | Throw e =>
            (Throw e,
             State (after_gas W (defaultOverrides this) lt "gasPrice" (heap s))
                   (trace s))
        | Ret _ =>
            (Ret (VRef lt),
             State (after_gas W (defaultOverrides this) lt "gasLimit"
                      (after_gas W (defaultOverrides this) lt "gasPrice" (heap s)))
                   (trace s))
        end
    end.
Proof.
  intros Hgp Hgl. rewrite override_steps.
  destruct (strict_eq (defaultOverrides this) VUndefined) eqn:Hu.
  { apply strict_eq_undefined in Hu. by rewrite Hu in Hgp. }
  rewrite run_bind, (apply_gas_ref _ _ _ _ gp Hgp).
  destruct (ToNumber W gp) as [np|e] eqn:Hnp.
  2:{ by rewrite (after_gas_throw _ _ _ _ gp e Hgp Hnp), state_eta. }
  rewrite run_bind.
  erewrite (apply_gas_ref _ _ "gasLimit" _ gl);
    [| simpl; by rewrite read_after_gas].
  simpl. destruct (ToNumber W gl) as [nl|e] eqn:Hnl; [done |].
  rewrite (after_gas_throw _ _ "gasLimit" _ gl e);
    [done | by rewrite read_after_gas | done].
Qed.

Lemma after_gas_known (o : value) lt k h (g : value) :
  read_field h o k = Ret g →
  after_gas W o lt k h = if gt_zero W g then store_field h lt k g else h.
Proof. intros Hg. unfold after_gas. by rewrite Hg. Qed.

(** Running the two checks again on their own result changes nothing. *)
Lemma after_gas_twice (o : value) lt h (gp gl : value) :
  read_field h o "gasPrice" = Ret gp →
  read_field h o "gasLimit" = Ret gl →
  let h' := after_gas W o lt "gasLimit" (after_gas W o lt "gasPrice" h) in
  after_gas W o lt "gasLimit" (after_gas W o lt "gasPrice" h') = h'.
Proof.
  intros Hgp Hgl h'. subst h'.
  rewrite (after_gas_known o lt "gasPrice" h gp Hgp).
  set (h1 := if gt_zero W gp then _ else _).
  assert (read_field h1 o "gasLimit" = Ret gl) as Hgl1.
  { rewrite <- Hgl, <- (read_after_gas o lt "gasPrice" h "gasLimit").
    by rewrite (after_gas_known o lt "gasPrice" h gp Hgp). }
  assert (read_field h1 o "gasPrice" = Ret gp) as Hgp1.
  { rewrite <- Hgp, <- (read_after_gas o lt "gasPrice" h "gasPrice").
    by rewrite (after_gas_known o lt "gasPrice" h gp Hgp). }
  rewrite (after_gas_known o lt "gasLimit" h1 gl Hgl1).
  set (h2 := if gt_zero W gl then _ else _).
  assert (read_field h2 o "gasPrice" = Ret gp) as Hgp2.
  { rewrite <- Hgp1, <- (read_after_gas o lt "gasLimit" h1 "gasPrice").
    by rewrite (after_gas_known o lt "gasLimit" h1 gl Hgl1). }
  assert (read_field h2 o "gasLimit" = Ret gl) as Hgl2.
  { rewrite <- Hgl1, <- (read_after_gas o lt "gasLimit" h1 "gasLimit").
    by rewrite (after_gas_known o lt "gasLimit" h1 gl Hgl1). }
  rewrite (after_gas_known o lt "gasPrice" h2 gp Hgp2).
  set (h3 := if gt_zero W gp then _ else _).
  assert (read_field h3 o "gasLimit" = Ret gl) as Hgl3.
  { rewrite <- Hgl2, <- (read_after_gas o lt "gasPrice" h2 "gasLimit").
    by rewrite (after_gas_known o lt "gasPrice" h2 gp Hgp2). }
  rewrite (after_gas_known o lt "gasLimit" h3 gl Hgl3).
  subst h3 h2 h1.
  destruct (gt_zero W gp), (gt_zero W gl); try done.
  - rewrite (store_field_swap _ lt "gasLimit" "gasPrice") by done.
    by rewrite !store_field_twice.
  - apply store_field_twice.
  - apply store_field_twice.
Qed.

(** On anything but an object a check writes nothing: it passes, or it
    fails on the conversion or on the assignment. *)
Lemma apply_gas_not_ref_readable this (tx : value) k (s : state) (g : value) :
  (∀ l, tx ≠ VRef l) →
  read_field (heap s) (defaultOverrides this) k = Ret g →
  apply_gas W this tx k s
  = (match ToNumber W g with
     | Ret _ => if gt_zero W g then Throw TypeError else Ret tt
     | Throw e => Throw e
     end, s).
Proof.
  intros Htx Hg.
  assert (∀ x, set_field tx k x s = (Throw TypeError, s)) as Hset.
  { intros x. destruct tx; try done. by destruct (Htx l). }
  unfold apply_gas, get_field, compare_gt_zero. rewrite run_bind, Hg, run_bind.
  destruct (ToNumber W g) as [n|e]; [| done].
  destruct (gt_zero W g); [| done]. by rewrite run_bind, Hg, Hset.
Qed.

Lemma apply_gas_not_ref this (tx : value) k (s : state) :
  (∀ l, tx ≠ VRef l) →
  apply_gas W this tx k s = (Ret tt, s)
  ∨ ∃ e, apply_gas W this tx k s = (Throw e, s).
Proof.
  intros Htx.
  destruct (read_field (heap s) (defaultOverrides this) k) as [g|e] eqn:Hg.
  - rewrite (apply_gas_not_ref_readable this tx k s g Htx Hg).
    destruct (ToNumber W g); [destruct (gt_zero W g) |]; eauto.
  - right. exists e. unfold apply_gas, get_field. by rewrite run_bind, Hg.
Qed.

Lemma override_not_ref this (tx : value) (s : state) :
  (∀ l, tx ≠ VRef l) →
  _overrideDeployTransactionConfig W this tx s = (Ret tx, s)
  ∨ ∃ e, _overrideDeployTransactionConfig W this tx s = (Throw e, s).
Proof.
  intros Htx. rewrite override_steps.
  destruct (strict_eq (defaultOverrides this) VUndefined); [by left |].
  rewrite run_bind.
  destruct (apply_gas_not_ref this tx "gasPrice" s Htx) as [-> | [e ->]]; [| eauto].
  rewrite run_bind.
  destruct (apply_gas_not_ref this tx "gasLimit" s Htx) as [-> | [e ->]]; [| eauto].
  by left.
Qed.

(** Overrides that cannot be read, that is [null]: the step fails on its
    first read. *)
Lemma override_unreadable this (tx : value) (s : state) (e : error) :
  strict_eq (defaultOverrides this) VUndefined = false →
  read_field (heap s) (defaultOverrides this) "gasPrice" = Throw e →
  _overrideDeployTransactionConfig W this tx s = (Throw e, s).
Proof.
  intros Hu He. unfold _overrideDeployTransactionConfig. rewrite Hu.
  unfold get_field. by rewrite run_bind, He.
Qed.

(** Whatever the step does, it logs nothing, and what it returns is the
    value it was given. *)
Lemma override_result this (tx : value) (s : state) :
  ∃ h', (_overrideDeployTransactionConfig W this tx s).2 = State h' (trace s)
        ∧ ((_overrideDeployTransactionConfig W this tx s).1 = Ret tx
           ∨ ∃ e, (_overrideDeployTransactionConfig W this tx s).1 = Throw e).
Proof.
  destruct (strict_eq (defaultOverrides this) VUndefined) eqn:Hu.
  { exists (heap s). unfold _overrideDeployTransactionConfig. rewrite Hu. simpl.
    rewrite state_eta. eauto. }
  destruct (read_field (heap s) (defaultOverrides this) "gasPrice") as [gp|e] eqn:Hgp.
  2:{ rewrite (override_unreadable _ _ _ e Hu Hgp). exists (heap s).
      rewrite state_eta. eauto. }
  destruct (read_field_ret_other _ _ _ "gasLimit" _ Hgp) as [gl Hgl].
  assert ((∃ lt, tx = VRef lt) ∨ ∀ l, tx ≠ VRef l) as [[lt ->]|Hn].
  { destruct tx; eauto. }
  - rewrite (override_ref _ _ _ gp gl Hgp Hgl).
    destruct (ToNumber W gp); [destruct (ToNumber W gl) |]; simpl; eauto.
    exists (heap s). rewrite state_eta. eauto.
  - destruct (override_not_ref this tx s Hn) as [-> | [e ->]];
      exists (heap s); rewrite state_eta; simpl; eauto.
Qed.

(** The fields of every object after the two checks. *)
Lemma own_field_overridden (o : value) lt h (gp gl : value) l' k' :
  read_field h o "gasPrice" = Ret gp →
  read_field h o "gasLimit" = Ret gl →
  own_field (after_gas W o lt "gasLimit" (after_gas W o lt "gasPrice" h)) l' k'
  = if decide (lt = l' ∧ "gasPrice" = k') then
      (if gt_zero W gp then Some gp else own_field h l' k')
    else if decide (lt = l' ∧ "gasLimit" = k') then
      (if gt_zero W gl then Some gl else own_field h l' k')
    else own_field h l' k'.
Proof.
  intros Hgp Hgl.
  assert (read_field (after_gas W o lt "gasPrice" h) o "gasLimit" = Ret gl) as Hgl1
    by by rewrite read_after_gas.
  rewrite (own_field_after_gas _ _ _ _ gl _ _ Hgl1).
  rewrite (own_field_after_gas _ _ _ _ gp _ _ Hgp).
  destruct (decide (lt = l' ∧ "gasPrice" = k')) as [[-> <-]|Hp].
  - rewrite decide_False; [done | by intros [_ ?]].
  - destruct (decide (lt = l' ∧ "gasLimit" = k')) as [[-> <-]|Hl]; [| done].
    by destruct (gt_zero W gl).
Qed.

(** A check whose override converts, to a number that is not above
    zero, does nothing. *)
Lemma apply_gas_skip this (tx : value) k (s : state) (g : value) (n : number) :
  read_field (heap s) (defaultOverrides this) k = Ret g →
  ToNumber W g = Ret n →
  gt_zero W g = false →
  apply_gas W this tx k s = (Ret tt, s).
Proof.
  intros Hg Hn Hgt. unfold apply_gas, get_field, compare_gt_zero.
  by rewrite run_bind, Hg, run_bind, Hn, Hgt.
Qed.

Lemma override_skip this (tx : value) (s : state) (gp gl : value) (np nl : number) :
  read_field (heap s) (defaultOverrides this) "gasPrice" = Ret gp →
  read_field (heap s) (defaultOverrides this) "gasLimit" = Ret gl →
  ToNumber W gp = Ret np →
  ToNumber W gl = Ret nl →
  gt_zero W gp = false →
  gt_zero W gl = false →
  _overrideDeployTransactionConfig W this tx s = (Ret tx, s).
Proof.
  intros Hgp Hgl Hnp Hnl Hp Hl. rewrite override_steps.
  destruct (strict_eq (defaultOverrides this) VUndefined); [done |].
  rewrite run_bind, (apply_gas_skip _ _ _ _ gp np Hgp Hnp Hp).
  by rewrite run_bind, (apply_gas_skip _ _ _ _ gl nl Hgl Hnl Hl).
Qed.

(** The step writes to the object it is given and to no other. *)
Lemma override_frame this (tx : value) (s : state) (l : loc) :
  tx ≠ VRef l →
  heap_get (heap (_overrideDeployTransactionConfig W this tx s).2) l
  = heap_get (heap s) l.
Proof.
  intros Hl.
  destruct (strict_eq (defaultOverrides this) VUndefined) eqn:Hu.
  { unfold _overrideDeployTransactionConfig. by rewrite Hu. }
  destruct (read_field (heap s) (defaultOverrides this) "gasPrice") as [gp|e] eqn:Hgp.
  2:{ by rewrite (override_unreadable _ _ _ e Hu Hgp). }
  destruct (read_field_ret_other _ _ _ "gasLimit" _ Hgp) as [gl Hgl].
  assert ((∃ lt, tx = VRef lt) ∨ ∀ l, tx ≠ VRef l) as [[lt ->]|Hn].
  { destruct tx; eauto. }
  - assert (l ≠ lt) as Hne by congruence.
    rewrite (override_ref _ _ _ gp gl Hgp Hgl).
    destruct (ToNumber W gp); [destruct (ToNumber W gl) |]; simpl;
      by rewrite ?heap_get_after_gas.
  - by destruct (override_not_ref this tx s Hn) as [-> | [e ->]].
Qed.

(** Applying the step to its own result. *)
Lemma override_again this (tx : value) (s : state) :
  (_overrideDeployTransactionConfig W this tx
     ≫= _overrideDeployTransactionConfig W this) s
  = _overrideDeployTransactionConfig W this tx s.
Proof.
  rewrite run_bind.
  destruct (strict_eq (defaultOverrides this) VUndefined) eqn:Hu.
  { unfold _overrideDeployTransactionConfig. by rewrite Hu. }
  destruct (read_field (heap s) (defaultOverrides this) "gasPrice") as [gp|e] eqn:Hgp.
  2:{ by rewrite (override_unreadable _ _ _ e Hu Hgp). }
  destruct (read_field_ret_other _ _ _ "gasLimit" _ Hgp) as [gl Hgl].
  assert ((∃ lt, tx = VRef lt) ∨ ∀ l, tx ≠ VRef l) as [[lt ->]|Hn'].
  { destruct tx; eauto. }
  - rewrite (override_ref _ _ _ gp gl Hgp Hgl).
    destruct (ToNumber W gp) as [np|e] eqn:Hnp; [| done].
    destruct (ToNumber W gl) as [nl|e] eqn:Hnl; [| done].
    set (h' := after_gas W _ lt "gasLimit" _).
    assert (read_field h' (defaultOverrides this) "gasPrice" = Ret gp) as Hgp'.
    { subst h'. by rewrite !read_after_gas. }
    assert (read_field h' (defaultOverrides this) "gasLimit" = Ret gl) as Hgl'.
    { subst h'. by rewrite !read_after_gas. }
    rewrite (override_ref this lt (State h' (trace s)) gp gl Hgp' Hgl').
    rewrite Hnp, Hnl. simpl.
    subst h'. by rewrite (after_gas_twice _ _ _ gp gl Hgp Hgl).
  - destruct (override_not_ref this tx s Hn') as [E|[e E]]; rewrite E; [done | done].
Qed.

End Overrides.

(** ** The log *)

Section Log.

Lemma count_events_app (f : event → bool) (l1 l2 : list event) :
  count_events f (l1 ++ l2) = (count_events f l1 + count_events f l2)%nat.
Proof. unfold count_events. by rewrite filter_app, length_app. Qed.

Lemma events_since_app (s s' : state) (evs : list event) :
  trace s' = trace s ++ evs → events_since s s' = evs.
Proof. intros H. unfold events_since. rewrite H. apply drop_app_length. Qed.

Lemma count_events_nil (f : event → bool) : count_events f [] = 0%nat.
Proof. reflexivity. Qed.

Lemma silent_nil : silent [].
Proof. by split. Qed.

Lemma silent_app (l1 l2 : list event) : silent l1 → silent l2 → silent (l1 ++ l2).
Proof.
  intros [H1 H2] [H3 H4]. split; rewrite count_events_app; lia.
Qed.

Lemma quiet_same_trace {A} (m : M A) :
  (∀ s, trace (m s).2 = trace s) → quiet m.
Proof.
  intros H s. exists []. rewrite H, app_nil_r. auto using silent_nil.
Qed.

Lemma quiet_ret {A} (a : A) : quiet (ret a).
Proof. by apply quiet_same_trace. Qed.

Lemma quiet_throw {A} (e : error) : quiet (@throw A e).
Proof. by apply quiet_same_trace. Qed.

Lemma quiet_get_field (v : value) (k : string) : quiet (get_field v k).
Proof. by apply quiet_same_trace. Qed.

Lemma quiet_set_field (v : value) (k : string) (x : value) : quiet (set_field v k x).
Proof. apply quiet_same_trace. intros s. unfold set_field. by destruct v. Qed.

Lemma quiet_call_ext f : quiet (call_ext f).
Proof.
  apply quiet_same_trace. intros s. unfold call_ext. by destruct (f (heap s)).
Qed.

Lemma quiet_console_log (line : string) : quiet (console_log line).
Proof. intros s. exists [EvLog line]. by repeat split. Qed.

Lemma quiet_bind {A B} (m : M A) (k : A → M B) :
  quiet m → (∀ a, quiet (k a)) → quiet (m ≫= k).
Proof.
  intros Hm Hk s. rewrite run_bind.
  destruct (Hm s) as (evs1 & T1 & S1).
  destruct (m s) as [[a|e] s1]; simpl in T1.
  - destruct (Hk a s1) as (evs2 & T2 & S2).
    exists (evs1 ++ evs2). split; [| by apply silent_app].
    by rewrite T2, T1, app_assoc.
  - by exists evs1.
Qed.

Lemma quiet_if {A} (b : bool) (m1 m2 : M A) :
  quiet m1 → quiet m2 → quiet (if b then m1 else m2).
Proof. by destruct b. Qed.

End Log.

Create HintDb quiet_db.
#[local] Hint Resolve quiet_ret quiet_throw quiet_get_field quiet_set_field
  quiet_call_ext quiet_console_log quiet_bind quiet_if : quiet_db.

Section Steps.

Context (W : World).
Implicit Types (this : Deployer) (s : state).

Lemma quiet_preValidateArguments this contract args :
  quiet (_preValidateArguments W this contract args).
Proof. unfold _preValidateArguments. auto with quiet_db. Qed.

Lemma quiet_prepareDeployTransaction this contract args :
  quiet (_prepareDeployTransaction W this contract args).
Proof. unfold _prepareDeployTransaction. auto with quiet_db. Qed.

Lemma quiet_overrideDeployTransactionConfig this tx :
  quiet (_overrideDeployTransactionConfig W this tx).
Proof.
  apply quiet_same_trace. intros s.
  destruct (override_result W this tx s) as (h' & -> & _). done.
Qed.

Lemma quiet_postValidateTransaction this contract transaction receipt :
  quiet (_postValidateTransaction W this contract transaction receipt).
Proof.
  unfold _postValidateTransaction.
  apply quiet_bind; [auto with quiet_db |]. intros status.
  auto with quiet_db.
Qed.

Lemma quiet_generateDeploymentResult this contract transaction receipt :
  quiet (_generateDeploymentResult W this contract transaction receipt).
Proof. unfold _generateDeploymentResult. auto 10 with quiet_db. Qed.

(** Waiting logs a line and the call to the provider, no submission and
    no receipt. *)
Lemma quiet_waitForDeployTransaction this transaction :
  quiet (_waitForDeployTransaction W this transaction).
Proof.
  assert (∀ recv ev f, is_send ev = false → is_receipt ev = false →
                       quiet (method_call recv ev f)) as Hcall.
  { intros recv ev f H1 H2.
    assert (quiet (emit ev)) as Hemit.
    { intros s. exists [ev]. split; [done |].
      unfold silent, count_events; simpl.
      rewrite !filter_cons_False by (by rewrite ?H1, ?H2). done. }
    unfold method_call. destruct recv; auto with quiet_db. }
  unfold _waitForDeployTransaction.
  apply quiet_bind; [auto with quiet_db | intros h].
  apply quiet_bind; [auto with quiet_db | intros _].
  apply quiet_bind; [auto with quiet_db | intros h'].
  apply quiet_bind; [by apply Hcall | intros _; auto with quiet_db].
Qed.

(** Submitting logs the call, once, unless there is no wallet to call. *)
Lemma trace_sendDeployTransaction this tx s :
  ∃ evs, trace (_sendDeployTransaction W this tx s).2 = trace s ++ evs
         ∧ count_events is_receipt evs = 0%nat
         ∧ (count_events is_send evs ≤ 1)%nat
         ∧ (∀ v, (_sendDeployTransaction W this tx s).1 = Ret v →
                 count_events is_send evs = 1%nat).
Proof.
  unfold _sendDeployTransaction, method_call.
  generalize (wallet this). intros w.
  assert (∃ evs, trace ((emit (EvSend w tx) ;;
                         call_ext (sendTransaction W w tx)) s).2
                 = trace s ++ evs
                 ∧ count_events is_receipt evs = 0%nat
                 ∧ count_events is_send evs = 1%nat) as (evs & T & R & S).
  { exists [EvSend w tx]. rewrite run_bind. simpl.
    unfold call_ext. simpl.
    by destruct (sendTransaction W w tx (heap s)). }
  destruct w;
    try (exists evs; split; [exact T | split; [done | split; [lia | done]]]);
    exists []; rewrite app_nil_r, !count_events_nil;
    (split; [done | split; [done | split; [lia | by intros v [=]]]]).
Qed.

(** Fetching the receipt logs the call, once, unless there is no provider
    to call or the transaction has no hash to read. *)
Lemma trace_getTransactionReceipt this transaction s :
  ∃ evs, trace (_getTransactionReceipt W this transaction s).2 = trace s ++ evs
         ∧ count_events is_send evs = 0%nat
         ∧ (count_events is_receipt evs ≤ 1)%nat
         ∧ (∀ v, (_getTransactionReceipt W this transaction s).1 = Ret v →
                 count_events is_receipt evs = 1%nat).
Proof.
  unfold _getTransactionReceipt, get_field. rewrite run_bind.
  destruct (read_field (heap s) transaction "hash") as [h|e].
  2:{ exists []. rewrite app_nil_r, !count_events_nil.
      split; [done | split; [done | split; [lia | by intros v [=]]]]. }
  unfold method_call.
  generalize (provider this). intros p.
  assert (∃ evs, trace ((emit (EvReceipt p h) ;;
                         call_ext (getTransactionReceipt W p h)) s).2
                 = trace s ++ evs
                 ∧ count_events is_send evs = 0%nat
                 ∧ count_events is_receipt evs = 1%nat) as (evs & T & R & S).
  { exists [EvReceipt p h]. rewrite run_bind. simpl.
    unfold call_ext. simpl.
    by destruct (getTransactionReceipt W p h (heap s)). }
  destruct p;
    try (exists evs; split; [exact T | split; [done | split; [lia | done]]]);
    exists []; rewrite app_nil_r, !count_events_nil;
    (split; [done | split; [done | split; [lia | by intros v [=]]]]).
Qed.

End Steps.

(** ** The pipeline *)

Section Pipeline.

Context (W : World).
Implicit Types (this : Deployer) (s : state) (contract : value) (args : list value).

Lemma deploy_steps this contract args s :
  deploy W this contract args s
  = (built ← deploy_until_built W this contract args;
     submitted ← _overrideDeployTransactionConfig W this built;
     deploy_from_submission W this contract submitted) s.
Proof.
  unfold deploy, deploy_until_built, deploy_from_submission.
  repeat first [done | run_step].
Qed.

Lemma deploy_split this contract args s :
  deploy W this contract args s
  = (fetched ← deploy_until_receipt W this contract args;
     _postValidateTransaction W this contract fetched.1 fetched.2 ;;
     _generateDeploymentResult W this contract fetched.1 fetched.2) s.
Proof.
  unfold deploy, deploy_until_receipt.
  repeat first [done | run_step].
Qed.

Lemma strict_eq_zero (v : value) :
  strict_eq v (VNum (Int 0)) = true ↔ v = VNum (Int 0).
Proof.
  split.
  - destruct v as [| |b|[|z]|str|l]; simpl; try done;
      intros H; by apply bool_decide_eq_true in H.
  - by intros ->.
Qed.

(** The receipt check: it passes and changes nothing, or it throws
    [DeploymentReverted] on a status that is [0], or the receipt cannot be
    read at all. *)
Lemma postValidate_cases this contract transaction receipt s :
  (_postValidateTransaction W this contract transaction receipt s = (Ret tt, s)
   ∧ read_field (heap s) receipt "status" ≠ Ret (VNum (Int 0)))
  ∨ (∃ e, _postValidateTransaction W this contract transaction receipt s = (Throw e, s)).
Proof.
  unfold _postValidateTransaction, get_field. rewrite run_bind.
  destruct (read_field (heap s) receipt "status") as [st|e] eqn:Hst; [| eauto].
  destruct (strict_eq st (VNum (Int 0))) eqn:Hz.
  - right. rewrite run_bind.
    destruct (read_field (heap s) receipt "transactionHash"); eauto.
  - left. split; [done |]. intros [= ->]. by rewrite (proj2 (strict_eq_zero _)) in Hz.
Qed.

Lemma postValidate_reverted this contract transaction receipt s :
  read_field (heap s) receipt "status" = Ret (VNum (Int 0)) →
  ∃ h, read_field (heap s) receipt "transactionHash" = Ret h
       ∧ _postValidateTransaction W this contract transaction receipt s
         = (Throw (DeploymentReverted W h), s).
Proof.
  intros Hst.
  destruct (read_field_ret_other _ _ _ "transactionHash" _ Hst) as [h Hh].
  exists h. split; [done |].
  unfold _postValidateTransaction, get_field. rewrite run_bind, Hst. simpl.
  by rewrite run_bind, Hh.
Qed.

(** The result is the receipt's contractAddress, and producing it only
    adds a line to the log. *)
Lemma generateDeploymentResult_ret this contract transaction receipt s (v : value) s' :
  _generateDeploymentResult W this contract transaction receipt s = (Ret v, s') →
  read_field (heap s) receipt "contractAddress" = Ret v ∧ heap s' = heap s.
Proof.
  unfold _generateDeploymentResult, get_field, console_log, emit.
  rewrite run_bind.
  destruct (read_field (heap s) contract "contractName") as [name|e]; [| done].
  rewrite run_bind.
  destruct (read_field (heap s) receipt "contractAddress") as [address|e] eqn:Ha;
    [| done].
  rewrite run_bind. simpl. rewrite Ha. by intros [= <- <-].
Qed.

(** *** Submissions and receipts of a run *)

Lemma submits_once_quiet_bind {A B} (m : M A) (k : A → M B) :
  quiet m → (∀ a, submits_once (k a)) → submits_once (m ≫= k).
Proof.
  intros Hm Hk s. rewrite run_bind.
  destruct (Hm s) as (evs1 & T1 & S1 & R1).
  destruct (m s) as [[a|e] s1]; simpl in T1.
  - destruct (Hk a s1) as (evs2 & T2 & B2 & E2).
    exists (evs1 ++ evs2). rewrite !count_events_app, S1, R1. simpl.
    split; [by rewrite T2, T1, app_assoc | done].
  - exists evs1. rewrite S1, R1. simpl. split; [done |]. split; [lia | done].
Qed.

Lemma fetches_once_quiet_bind {A B} (m : M A) (k : A → M B) :
  quiet m → (∀ a, fetches_once (k a)) → fetches_once (m ≫= k).
Proof.
  intros Hm Hk s. rewrite run_bind.
  destruct (Hm s) as (evs1 & T1 & S1 & R1).
  destruct (m s) as [[a|e] s1]; simpl in T1.
  - destruct (Hk a s1) as (evs2 & T2 & B2 & E2).
    exists (evs1 ++ evs2). rewrite !count_events_app, S1, R1. simpl.
    split; [by rewrite T2, T1, app_assoc | done].
  - exists evs1. rewrite S1, R1. simpl.
    split; [done |]. split; [done |]. split; [lia | done].
Qed.

Lemma submits_once_send_bind {B} this tx (k : value → M B) :
  (∀ t, fetches_once (k t)) →
  submits_once (_sendDeployTransaction W this tx ≫= k).
Proof.
  intros Hk s. rewrite run_bind.
  destruct (trace_sendDeployTransaction W this tx s) as (evs1 & T1 & R1 & S1 & E1).
  destruct (_sendDeployTransaction W this tx s) as [[t|e] s1]; simpl in T1, E1.
  - destruct (Hk t s1) as (evs2 & T2 & S2 & R2 & E2).
    exists (evs1 ++ evs2). rewrite !count_events_app, R1, S2, (E1 t eq_refl).
    split; [by rewrite T2, T1, app_assoc |].
    split; [lia |]. intros b Hb. rewrite (E2 b Hb). lia.
  - exists evs1. rewrite R1. split; [done |]. split; [lia | done].
Qed.

Lemma fetches_once_receipt_bind {B} this transaction (k : value → M B) :
  (∀ r, quiet (k r)) →
  fetches_once (_getTransactionReceipt W this transaction ≫= k).
Proof.
  intros Hk s. rewrite run_bind.
  destruct (trace_getTransactionReceipt W this transaction s)
    as (evs1 & T1 & S1 & R1 & E1).
  destruct (_getTransactionReceipt W this transaction s) as [[r|e] s1];
    simpl in T1, E1.
  - destruct (Hk r s1) as (evs2 & T2 & S2 & R2).
    exists (evs1 ++ evs2). rewrite !count_events_app, S1, S2, R2, (E1 r eq_refl).
    split; [by rewrite T2, T1, app_assoc |].
    split; [done |]. split; [lia |]. intros; lia.
  - exists evs1. by rewrite S1.
Qed.

Lemma submits_once_deploy this contract args :
  submits_once (deploy W this contract args).
Proof.
  unfold deploy.
  apply submits_once_quiet_bind; [apply quiet_preValidateArguments | intros _].
  apply submits_once_quiet_bind; [apply quiet_prepareDeployTransaction | intros built].
  apply submits_once_quiet_bind;
    [apply quiet_overrideDeployTransactionConfig | intros submitted].
  apply submits_once_send_bind. intros transaction.
  apply fetches_once_quiet_bind; [apply quiet_waitForDeployTransaction | intros _].
  apply fetches_once_receipt_bind. intros receipt.
  apply quiet_bind; [apply quiet_postValidateTransaction | intros _].
  apply quiet_generateDeploymentResult.
Qed.

Lemma submits_once_deploy_until_receipt this contract args :
  submits_once (deploy_until_receipt W this contract args).
Proof.
  unfold deploy_until_receipt.
  apply submits_once_quiet_bind; [apply quiet_preValidateArguments | intros _].
  apply submits_once_quiet_bind; [apply quiet_prepareDeployTransaction | intros built].
  apply submits_once_quiet_bind;
    [apply quiet_overrideDeployTransactionConfig | intros submitted].
  apply submits_once_send_bind. intros transaction.
  apply fetches_once_quiet_bind; [apply quiet_waitForDeployTransaction | intros _].
  apply fetches_once_receipt_bind. intros receipt.
  apply quiet_ret.
Qed.

End Pipeline.

(** ** The steps, run *)

Section Runs.

Context (W : World).
Implicit Types (this : Deployer) (s : state) (h : gmap loc obj) (k : string).

Lemma string_app_nil_r (x : string) : x +:+ "" = x.
Proof.
  induction x as [|c x IH]; [done |].
  change (String c x +:+ "") with (String c (x +:+ "")). by rewrite IH.
Qed.

Lemma read_field_nullish h (v : value) k :
  nullish v = true → read_field h v k = Throw TypeError.
Proof. by destruct v. Qed.

Lemma read_field_not_nullish h (v : value) k :
  nullish v = false → ∃ x, read_field h v k = Ret x.
Proof. destruct v; simpl; intros H; try discriminate H; eauto. Qed.

Lemma read_field_ret_not_nullish h (v : value) k (x : value) :
  read_field h v k = Ret x → nullish v = false.
Proof. by destruct v. Qed.

Lemma preValidate_nullish this (contract : value) (args : list value) s :
  nullish contract = true →
  _preValidateArguments W this contract args s = (Throw TypeError, s).
Proof.
  intros Hn. unfold _preValidateArguments, get_field.
  by rewrite run_bind, (read_field_nullish _ _ _ Hn).
Qed.

Lemma preValidate_ret this (contract : value) (args : list value) s (name : value) :
  read_field (heap s) contract "contractName" = Ret name →
  _preValidateArguments W this contract args s
  = (Ret tt,
     State (heap s)
       (trace s ++
        [EvLog ((newline +:+ "Deploying contract: " +:+ colorName W name)
                +:+ (if (length args =? 0)%nat then ""
                     else " with arguments: " +:+ colorParams W args))])).
Proof.
  intros Hname. unfold _preValidateArguments, get_field.
  by rewrite run_bind, Hname.
Qed.

Lemma prepare_run this (contract : value) (args : list value) s (bytecode abi : value) :
  read_field (heap s) contract "bytecode" = Ret bytecode →
  read_field (heap s) contract "abi" = Ret abi →
  _prepareDeployTransaction W this contract args s
  = call_ext (getDeployTransaction W bytecode abi args) s.
Proof.
  intros Hb Ha. unfold _prepareDeployTransaction, get_field.
  by rewrite run_bind, Hb, run_bind, Ha.
Qed.

Lemma call_ext_run f s :
  call_ext f s = ((f (heap s)).1, State (f (heap s)).2 (trace s)).
Proof. unfold call_ext. by destruct (f (heap s)). Qed.

Lemma send_nullish this (tx : value) s :
  nullish (wallet this) = true →
  _sendDeployTransaction W this tx s = (Throw TypeError, s).
Proof.
  intros Hn. unfold _sendDeployTransaction, method_call.
  by destruct (wallet this).
Qed.

Lemma send_run this (tx : value) s :
  nullish (wallet this) = false →
  _sendDeployTransaction W this tx s
  = ((sendTransaction W (wallet this) tx (heap s)).1,
     State (sendTransaction W (wallet this) tx (heap s)).2
           (trace s ++ [EvSend (wallet this) tx])).
Proof.
  intros Hn. unfold _sendDeployTransaction, method_call.
  destruct (wallet this); try discriminate Hn;
    by rewrite run_bind; simpl; rewrite call_ext_run.
Qed.

Lemma wait_nullish this (transaction : value) s :
  nullish transaction = true →
  _waitForDeployTransaction W this transaction s = (Throw TypeError, s).
Proof.
  intros Hn. unfold _waitForDeployTransaction, get_field.
  by rewrite run_bind, (read_field_nullish _ _ _ Hn).
Qed.

Lemma wait_no_provider this (transaction : value) s (hash : value) :
  read_field (heap s) transaction "hash" = Ret hash →
  nullish (provider this) = true →
  _waitForDeployTransaction W this transaction s
  = (Throw TypeError,
     State (heap s)
       (trace s ++
        [EvLog ("Waiting for transaction to be included in block and mined: "
                +:+ colorTransactionHash W hash)])).
Proof.
  intros Hh Hn. unfold _waitForDeployTransaction, get_field, console_log, emit.
  rewrite run_bind, Hh, run_bind. simpl. rewrite run_bind. simpl. rewrite Hh.
  rewrite run_bind. unfold method_call. by destruct (provider this).
Qed.

Lemma wait_run this (transaction : value) s (hash : value) :
  read_field (heap s) transaction "hash" = Ret hash →
  nullish (provider this) = false →
  _waitForDeployTransaction W this transaction s
  = (match (waitForTransaction W (provider this) hash (heap s)).1 with
     | Ret _ => Ret tt
     | Throw e => Throw e
     end,
     State (waitForTransaction W (provider this) hash (heap s)).2
       (trace s ++
        [EvLog ("Waiting for transaction to be included in block and mined: "
                +:+ colorTransactionHash W hash);
         EvWait (provider this) hash])).
Proof.
  intros Hh Hn. unfold _waitForDeployTransaction, get_field, console_log, emit.
  rewrite run_bind, Hh, run_bind. simpl. rewrite run_bind. simpl. rewrite Hh.
  rewrite run_bind. unfold method_call.
  destruct (provider this); try discriminate Hn;
    rewrite run_bind; simpl; rewrite call_ext_run; simpl;
    rewrite <- app_assoc; simpl;
    by destruct (waitForTransaction W _ hash (heap s)) as [[?|?] ?].
Qed.

Lemma receipt_nullish this (transaction : value) s :
  nullish transaction = true →
  _getTransactionReceipt W this transaction s = (Throw TypeError, s).
Proof.
  intros Hn. unfold _getTransactionReceipt, get_field.
  by rewrite run_bind, (read_field_nullish _ _ _ Hn).
Qed.

Lemma receipt_no_provider this (transaction : value) s :
  nullish (provider this) = true →
  _getTransactionReceipt W this transaction s = (Throw TypeError, s).
Proof.
  intros Hn. unfold _getTransactionReceipt, get_field. rewrite run_bind.
  destruct (read_field (heap s) transaction "hash") as [hash|e] eqn:Hh.
  - unfold method_call. by destruct (provider this).
  - by destruct (read_field_throw _ _ _ _ Hh) as [-> _].
Qed.

Lemma receipt_run this (transaction : value) s (hash : value) :
  read_field (heap s) transaction "hash" = Ret hash →
  nullish (provider this) = false →
  _getTransactionReceipt W this transaction s
  = ((getTransactionReceipt W (provider this) hash (heap s)).1,
     State (getTransactionReceipt W (provider this) hash (heap s)).2
           (trace s ++ [EvReceipt (provider this) hash])).
Proof.
  intros Hh Hn. unfold _getTransactionReceipt, get_field.
  rewrite run_bind, Hh. unfold method_call.
  destruct (provider this); try discriminate Hn;
    by rewrite run_bind; simpl; rewrite call_ext_run.
Qed.

Lemma generate_run this (contract transaction receipt : value) s (name address : value) :
  read_field (heap s) contract "contractName" = Ret name →
  read_field (heap s) receipt "contractAddress" = Ret address →
  _generateDeploymentResult W this contract transaction receipt s
  = (Ret address,
     State (heap s)
       (trace s ++
        [EvLog ("Contract " +:+ colorName W name +:+ " deployed at address: "
                +:+ colorAddress W address)])).
Proof.
  intros Hn Ha. unfold _generateDeploymentResult, get_field, console_log, emit.
  rewrite run_bind, Hn, run_bind, Ha, run_bind. simpl. by rewrite Ha.
Qed.

Lemma postValidate_pass this (contract transaction receipt : value) s (status : value) :
  read_field (heap s) receipt "status" = Ret status →
  status ≠ VNum (Int 0) →
  _postValidateTransaction W this contract transaction receipt s = (Ret tt, s).
Proof.
  intros Hst Hne. unfold _postValidateTransaction, get_field.
  rewrite run_bind, Hst.
  destruct (strict_eq status (VNum (Int 0))) eqn:E; [| done].
  by apply strict_eq_zero in E.
Qed.

End Runs.

(** ** The pipeline, run *)

Section PipelineRuns.

Context (W : World).
Implicit Types (this : Deployer) (s : state) (contract : value) (args : list value).

Lemma deploy_from_overridden this contract args s :
  deploy W this contract args s
  = (submitted ← deploy_until_overridden W this contract args;
     deploy_from_submission W this contract submitted) s.
Proof.
  unfold deploy, deploy_until_overridden, deploy_from_submission.
  repeat first [done | run_step].
Qed.

Lemma deploy_from_sent this contract args s :
  deploy W this contract args s
  = (transaction ← deploy_until_sent W this contract args;
     _waitForDeployTransaction W this transaction ;;
     transactionReceipt ← _getTransactionReceipt W this transaction;
     _postValidateTransaction W this contract transaction transactionReceipt ;;
     _generateDeploymentResult W this contract transaction transactionReceipt) s.
Proof.
  unfold deploy, deploy_until_sent, deploy_until_overridden.
  repeat first [done | run_step].
Qed.

Lemma deploy_until_receipt_from_sent this contract args s :
  deploy_until_receipt W this contract args s
  = (transaction ← deploy_until_sent W this contract args;
     _waitForDeployTransaction W this transaction ;;
     transactionReceipt ← _getTransactionReceipt W this transaction;
     ret (transaction, transactionReceipt)) s.
Proof.
  unfold deploy_until_receipt, deploy_until_sent, deploy_until_overridden.
  repeat first [done | run_step].
Qed.

(** Up to the transaction to submit: what was logged, and where the
    transaction comes from. *)
Lemma until_overridden_ret this contract args s (tx : value) s1 :
  deploy_until_overridden W this contract args s = (Ret tx, s1) →
  ∃ name s0,
    read_field (heap s) contract "contractName" = Ret name
    ∧ deploy_until_built W this contract args s = (Ret tx, s0)
    ∧ _overrideDeployTransactionConfig W this tx s0 = (Ret tx, s1)
    ∧ trace s1
      = trace s ++
        [EvLog ((newline +:+ "Deploying contract: " +:+ colorName W name)
                +:+ (if (length args =? 0)%nat then ""
                     else " with arguments: " +:+ colorParams W args))].
Proof.
  unfold deploy_until_overridden, deploy_until_built. rewrite !run_bind.
  destruct (read_field (heap s) contract "contractName") as [name|e] eqn:Hname.
  2:{ destruct (read_field_throw _ _ _ _ Hname) as [_ Hc].
      rewrite preValidate_nullish; [done | by destruct Hc as [-> | ->]]. }
  rewrite (preValidate_ret W this contract args s name Hname).
  rewrite !run_bind.
  destruct (_prepareDeployTransaction W this contract args _)
    as [[built|e] s0] eqn:Hbuild; [| done].
  intros Hov. exists name, s0. split; [done |].
  destruct (override_result W this built s0) as (h' & Hs & Hv).
  rewrite Hov in Hs, Hv. simpl in Hs, Hv.
  destruct Hv as [[= ->] | [e [=]]].
  split; [done |]. split; [done |].
  rewrite Hs. simpl.
  unfold _prepareDeployTransaction, get_field in Hbuild.
  rewrite !run_bind in Hbuild. simpl in Hbuild.
  destruct (read_field (heap s) contract "bytecode"); [| done].
  rewrite run_bind in Hbuild. simpl in Hbuild.
  destruct (read_field (heap s) contract "abi"); [| done].
  rewrite call_ext_run in Hbuild. simpl in Hbuild.
  by injection Hbuild as _ <-.
Qed.

(** When it fails before the submission, [deploy] has logged at most its
    first line. *)
Lemma until_overridden_throw this contract args s (e : error) s1 :
  deploy_until_overridden W this contract args s = (Throw e, s1) →
  trace s1 = trace s ∨ ∃ line, trace s1 = trace s ++ [EvLog line].
Proof.
  unfold deploy_until_overridden. rewrite !run_bind.
  destruct (read_field (heap s) contract "contractName") as [name|e0] eqn:Hname.
  2:{ destruct (read_field_throw _ _ _ _ Hname) as [_ Hc].
      rewrite preValidate_nullish; [| by destruct Hc as [-> | ->]].
      intros [= _ <-]. by left. }
  rewrite (preValidate_ret W this contract args s name Hname).
  rewrite !run_bind. intros Hrun. right. eexists.
  set (s0 := State (heap s) _) in Hrun.
  assert (∀ r s', _prepareDeployTransaction W this contract args s0 = (r, s') →
                  trace s' = trace s0) as Hbuild.
  { intros r s'. unfold _prepareDeployTransaction, get_field. rewrite !run_bind.
    destruct (read_field (heap s0) contract "bytecode"); [| by intros [= _ <-]].
    rewrite run_bind.
    destruct (read_field (heap s0) contract "abi"); [| by intros [= _ <-]].
    rewrite call_ext_run. by intros [= _ <-]. }
  destruct (_prepareDeployTransaction W this contract args s0)
    as [[built|e1] s0'] eqn:Hb; specialize (Hbuild _ _ eq_refl).
  - destruct (override_result W this built s0') as (h' & Hs & _).
    rewrite Hrun in Hs. simpl in Hs. rewrite Hs. simpl. by rewrite Hbuild.
  - injection Hrun as _ <-. by rewrite Hbuild.
Qed.

(** Up to the transaction the wallet returned. *)
Lemma until_sent_ret this contract args s (transaction : value) s2 :
  deploy_until_sent W this contract args s = (Ret transaction, s2) →
  ∃ tx s1 line,
    deploy_until_overridden W this contract args s = (Ret tx, s1)
    ∧ nullish (wallet this) = false
    ∧ sendTransaction W (wallet this) tx (heap s1) = (Ret transaction, heap s2)
    ∧ trace s1 = trace s ++ [EvLog line]
    ∧ trace s2 = trace s ++ [EvLog line; EvSend (wallet this) tx].
Proof.
  unfold deploy_until_sent. rewrite run_bind.
  destruct (deploy_until_overridden W this contract args s)
    as [[tx|e] s1] eqn:Hov; [| done].
  destruct (until_overridden_ret _ _ _ _ _ _ Hov) as (name & s0 & _ & _ & _ & T1).
  destruct (nullish (wallet this)) eqn:Hw.
  { by rewrite send_nullish. }
  rewrite (send_run W this tx s1 Hw).
  destruct (sendTransaction W (wallet this) tx (heap s1)) as [r h2] eqn:Hsend.
  simpl. intros [= -> <-]. exists tx, s1. eexists.
  split; [done |]. split; [done |]. split; [exact Hsend |]. split; [exact T1 |].
  simpl. by rewrite T1, <- app_assoc.
Qed.

Lemma until_receipt_not_nullish this contract args s (fetched : value * value) s1 :
  deploy_until_receipt W this contract args s = (Ret fetched, s1) →
  nullish contract = false.
Proof.
  unfold deploy_until_receipt. rewrite run_bind.
  destruct (nullish contract) eqn:Hc; [| done].
  by rewrite preValidate_nullish.
Qed.

End PipelineRuns.


(** ** Where a run stopped, and what it had done by then *)

Section Counts.

Context (W : World).
Implicit Types (this : Deployer) (s : state) (contract : value) (args : list value).

(** A failure before the submission: [deploy] fails with it, and has
    called neither the wallet nor the provider. *)
Lemma stopped_before_submission this contract args s (e : error) s1 :
  deploy_until_overridden W this contract args s = (Throw e, s1) →
  deploy W this contract args s = (Throw e, s1)
  ∧ submissions W this contract args s = 0%nat
  ∧ receipts W this contract args s = 0%nat.
Proof.
  intros Hrun.
  assert (deploy W this contract args s = (Throw e, s1)) as Hd.
  { by rewrite deploy_from_overridden, run_bind, Hrun. }
  split; [exact Hd |].
  unfold submissions, receipts. rewrite Hd. simpl.
  destruct (until_overridden_throw W _ _ _ _ _ _ Hrun) as [T | [line T]].
  - rewrite <- (app_nil_r (trace s)) in T.
    by rewrite (events_since_app _ _ _ T).
  - by rewrite (events_since_app _ _ _ T).
Qed.

(** A failure of the submission: [deploy] fails with it, and has fetched
    no receipt. *)
Lemma stopped_at_submission this contract args s (tx : value) s1 (e : error) s2 :
  deploy_until_overridden W this contract args s = (Ret tx, s1) →
  _sendDeployTransaction W this tx s1 = (Throw e, s2) →
  deploy W this contract args s = (Throw e, s2)
  ∧ receipts W this contract args s = 0%nat.
Proof.
  intros Hov Hsend.
  assert (deploy W this contract args s = (Throw e, s2)) as Hd.
  { rewrite deploy_from_overridden, run_bind, Hov.
    unfold deploy_from_submission. by rewrite run_bind, Hsend. }
  split; [exact Hd |].
  unfold receipts. rewrite Hd. simpl.
  destruct (until_overridden_ret W _ _ _ _ _ _ Hov) as (name & s0 & _ & _ & _ & T1).
  destruct (trace_sendDeployTransaction W this tx s1) as (evs & T2 & R2 & _).
  rewrite Hsend in T2. simpl in T2.
  rewrite T1, <- app_assoc in T2.
  by rewrite (events_since_app _ _ _ T2), count_events_app, R2.
Qed.

(** What follows the submission fetches at most one receipt and submits
    nothing more. *)
Lemma fetches_once_from_sent this contract (transaction : value) :
  fetches_once
    (_waitForDeployTransaction W this transaction ;;
     transactionReceipt ← _getTransactionReceipt W this transaction;
     _postValidateTransaction W this contract transaction transactionReceipt ;;
     _generateDeploymentResult W this contract transaction transactionReceipt).
Proof.
  apply fetches_once_quiet_bind; [apply quiet_waitForDeployTransaction | intros _].
  apply fetches_once_receipt_bind. intros receipt.
  apply quiet_bind; [apply quiet_postValidateTransaction | intros _].
  apply quiet_generateDeploymentResult.
Qed.

(** Once the wallet returned, one transaction is out whatever follows;
    and when the wait fails, [deploy] fails with it and has fetched no
    receipt. *)
Lemma stopped_after_submission this contract args s (transaction : value) s2 :
  deploy_until_sent W this contract args s = (Ret transaction, s2) →
  submissions W this contract args s = 1%nat
  ∧ ∀ e s3,
      _waitForDeployTransaction W this transaction s2 = (Throw e, s3) →
      deploy W this contract args s = (Throw e, s3)
      ∧ receipts W this contract args s = 0%nat.
Proof.
  intros Hsent.
  destruct (until_sent_ret W _ _ _ _ _ _ Hsent) as (tx & s1 & l1 & _ & _ & _ & _ & T2).
  split.
  - unfold submissions. rewrite deploy_from_sent, run_bind, Hsent.
    destruct (fetches_once_from_sent this contract transaction s2)
      as (evs & T & S & _).
    rewrite T2, <- app_assoc in T.
    by rewrite (events_since_app _ _ _ T), count_events_app, S.
  - intros e s3 Hwait.
    assert (deploy W this contract args s = (Throw e, s3)) as Hd.
    { by rewrite deploy_from_sent, run_bind, Hsent, run_bind, Hwait. }
    split; [exact Hd |].
    unfold receipts. rewrite Hd. simpl.
    destruct (quiet_waitForDeployTransaction W this transaction s2)
      as (evs & T & _ & R).
    rewrite Hwait in T. simpl in T. rewrite T2, <- app_assoc in T.
    by rewrite (events_since_app _ _ _ T), count_events_app, R.
Qed.

End Counts.
(** ** Properties of the deployer *)

(** C1. A [deploy] that completes (it returns a value, so the receipt
    check passed) returns exactly the [contractAddress] of the receipt it
    fetched: the pipeline reached a receipt whose status is not [0], and
    the value returned is that receipt's contractAddress field. *)
Theorem deploy_returns_receipt_address (W : World) (this : Deployer)
    (contract : value) (args : list value) (s : state) (v : value) (s' : state) :
  deploy W this contract args s = (Ret v, s') →
  ∃ transaction receipt s1,
    deploy_until_receipt W this contract args s = (Ret (transaction, receipt), s1)
    ∧ read_field (heap s1) receipt "status" ≠ Ret (VNum (Int 0))
    ∧ read_field (heap s1) receipt "contractAddress" = Ret v
    ∧ heap s' = heap s1.
Proof.
  rewrite deploy_split, run_bind.
  destruct (deploy_until_receipt W this contract args s) as [[[t r]|e] s1]; [| done].
  simpl. rewrite run_bind.
  destruct (postValidate_cases W this contract t r s1) as [[-> Hst]|[e ->]]; [| done].
  intros Hgen. apply generateDeploymentResult_ret in Hgen as [Ha Hh].
  by exists t, r, s1.
Qed.

(** The scenario of the spec: the Token contract, one constructor
    argument, the overrides [{gasPrice: 5, gasLimit: 0}] and a receipt that
    reports ["0xABC"]. *)
Lemma deploy_returns_receipt_address_run :
  ∃ transaction receipt s1,
    deploy_until_receipt (Sample.world 1) (Sample.deployer (VRef 4%positive))
      (VRef 3%positive) [VNum (Int 1000)] Sample.start
    = (Ret (transaction, receipt), s1)
    ∧ read_field (heap s1) receipt "status" ≠ Ret (VNum (Int 0))
    ∧ read_field (heap s1) receipt "contractAddress" = Ret (VStr "0xABC")
    ∧ heap (deploy (Sample.world 1) (Sample.deployer (VRef 4%positive))
              (VRef 3%positive) [VNum (Int 1000)] Sample.start).2
      = heap s1.
Proof.
  apply (deploy_returns_receipt_address (Sample.world 1)
           (Sample.deployer (VRef 4%positive)) (VRef 3%positive)
           [VNum (Int 1000)] Sample.start (VStr "0xABC")).
  vm_compute. reflexivity.
Defined.

(** In that run the transaction built at 8 is submitted once, with the
    gasPrice of the overrides and the gasLimit it was built with. *)
Example token_scenario :
  let r := deploy (Sample.world 1) (Sample.deployer (VRef 4%positive))
             (VRef 3%positive) [VNum (Int 1000)] Sample.start in
  r.1 = Ret (VStr "0xABC")
  ∧ filter (λ ev, is_send ev = true) (trace r.2)
    = [EvSend (VRef 1%positive) (VRef 8%positive)]
  ∧ own_field (heap r.2) 8%positive "gasPrice" = Some (VNum (Int 5))
  ∧ own_field (heap r.2) 8%positive "gasLimit" = Some (VNum (Int 1500000)).
Proof. vm_compute. repeat split. Qed.

(** C2. When the configured overrides hold a gasPrice that is [<= 0], the
    gasPrice field of the transaction is after the apply-overrides step what
    it was before; the same for gasLimit. [k] is either of the two
    fields. *)
Theorem nonpositive_override_keeps_gas_field (W : World) (this : Deployer)
    (lt : loc) (s : state) (k : string) (g : value) :
  k = "gasPrice" ∨ k = "gasLimit" →
  read_field (heap s) (defaultOverrides this) k = Ret g →
  le_zero W g = true →
  own_field (heap (_overrideDeployTransactionConfig W this (VRef lt) s).2) lt k
  = own_field (heap s) lt k.
Proof.
  intros Hk Hg Hle. apply le_zero_not_gt in Hle.
  destruct (read_field_ret_other _ _ _ "gasPrice" _ Hg) as [gp Hgp].
  destruct (read_field_ret_other _ _ _ "gasLimit" _ Hg) as [gl Hgl].
  assert (g = if decide (k = "gasPrice") then gp else gl) as Hgk.
  { destruct Hk as [-> | ->]; simpl; congruence. }
  rewrite (override_ref W this lt s gp gl Hgp Hgl).
  destruct (ToNumber W gp) as [np|e]; [destruct (ToNumber W gl) as [nl|e] |];
    simpl; [| | done].
  - rewrite (own_field_overridden W _ _ _ gp gl _ _ Hgp Hgl).
    destruct Hk as [-> | ->]; simpl in Hgk; subst g.
    + rewrite decide_True by done. by rewrite Hle.
    + rewrite decide_False by (by intros [_ ?]). rewrite decide_True by done.
      by rewrite Hle.
  - rewrite (own_field_after_gas W _ _ _ _ gp _ _ Hgp).
    destruct Hk as [-> | ->]; simpl in Hgk; subst g.
    + rewrite decide_True by done. by rewrite Hle.
    + by rewrite decide_False by (by intros [_ ?]).
Qed.

(** Overrides [{gasPrice: 0, gasLimit: -3}] on a transaction with
    gasPrice 20 and gasLimit 1500000. *)
Lemma nonpositive_override_keeps_gas_field_run :
  own_field (heap (_overrideDeployTransactionConfig (Sample.world 1)
                     (Sample.deployer (VRef 6%positive)) (VRef 7%positive)
                     Sample.start).2) 7%positive "gasPrice"
  = own_field (heap Sample.start) 7%positive "gasPrice"
  ∧ own_field (heap (_overrideDeployTransactionConfig (Sample.world 1)
                       (Sample.deployer (VRef 6%positive)) (VRef 7%positive)
                       Sample.start).2) 7%positive "gasLimit"
    = own_field (heap Sample.start) 7%positive "gasLimit".
Proof.
  split.
  - apply (nonpositive_override_keeps_gas_field (Sample.world 1)
             (Sample.deployer (VRef 6%positive)) 7%positive Sample.start
             "gasPrice" (VNum (Int 0))).
    + left. reflexivity.
    + vm_compute. reflexivity.
    + vm_compute. reflexivity.
  - apply (nonpositive_override_keeps_gas_field (Sample.world 1)
             (Sample.deployer (VRef 6%positive)) 7%positive Sample.start
             "gasLimit" (VNum (Int (-3)))).
    + right. reflexivity.
    + vm_compute. reflexivity.
    + vm_compute. reflexivity.
Defined.

(** C3. A deployer constructed without overrides ([undefined]) leaves the
    transaction alone: the apply-overrides step returns the transaction it
    was given in an unchanged store, so [deploy] submits the transaction
    of the build step as it was built. *)
Theorem absent_overrides_submit_built_transaction (W : World) (this : Deployer) :
  defaultOverrides this = VUndefined →
  (∀ tx s, _overrideDeployTransactionConfig W this tx s = (Ret tx, s))
  ∧ (∀ contract args s,
       deploy W this contract args s
       = (built ← deploy_until_built W this contract args;
          deploy_from_submission W this contract built) s).
Proof.
  intros Hu.
  assert (∀ tx s, _overrideDeployTransactionConfig W this tx s = (Ret tx, s)) as Hid.
  { intros tx s. unfold _overrideDeployTransactionConfig. by rewrite Hu. }
  split; [exact Hid |].
  intros contract args s. rewrite deploy_steps, !run_bind.
  destruct (deploy_until_built W this contract args s) as [[built|e] s1]; [| done].
  by rewrite run_bind, Hid.
Qed.

Lemma absent_overrides_submit_built_transaction_run :
  (∀ tx s,
     _overrideDeployTransactionConfig (Sample.world 1) (Sample.deployer VUndefined) tx s
     = (Ret tx, s))
  ∧ (∀ contract args s,
       deploy (Sample.world 1) (Sample.deployer VUndefined) contract args s
       = (built ← deploy_until_built (Sample.world 1) (Sample.deployer VUndefined)
                    contract args;
          deploy_from_submission (Sample.world 1) (Sample.deployer VUndefined)
            contract built) s).
Proof.
  apply (absent_overrides_submit_built_transaction (Sample.world 1)
           (Sample.deployer VUndefined)).
  reflexivity.
Defined.

(** C4. When the receipt that [deploy] fetched has status [0], [deploy]
    throws the error that names the receipt's transaction hash and returns
    no result. *)
Theorem failed_receipt_reverts_deploy (W : World) (this : Deployer)
    (contract : value) (args : list value) (s : state)
    (transaction receipt : value) (s1 : state) :
  deploy_until_receipt W this contract args s = (Ret (transaction, receipt), s1) →
  read_field (heap s1) receipt "status" = Ret (VNum (Int 0)) →
  ∃ h, read_field (heap s1) receipt "transactionHash" = Ret h
       ∧ deploy W this contract args s = (Throw (DeploymentReverted W h), s1).
Proof.
  intros Hrun Hst.
  destruct (postValidate_reverted W this contract transaction receipt s1 Hst)
    as (h & Hh & Hpost).
  exists h. split; [done |].
  rewrite deploy_split, run_bind, Hrun. simpl.
  by rewrite run_bind, Hpost.
Qed.

Lemma failed_receipt_reverts_deploy_run :
  ∃ h, read_field
         (heap (deploy_until_receipt (Sample.world 0) (Sample.deployer (VRef 4%positive))
                  (VRef 3%positive) [VNum (Int 1000)] Sample.start).2)
         (VRef 10%positive) "transactionHash" = Ret h
       ∧ deploy (Sample.world 0) (Sample.deployer (VRef 4%positive))
           (VRef 3%positive) [VNum (Int 1000)] Sample.start
         = (Throw (DeploymentReverted (Sample.world 0) h),
            (deploy_until_receipt (Sample.world 0) (Sample.deployer (VRef 4%positive))
               (VRef 3%positive) [VNum (Int 1000)] Sample.start).2).
Proof.
  apply (failed_receipt_reverts_deploy (Sample.world 0)
           (Sample.deployer (VRef 4%positive)) (VRef 3%positive)
           [VNum (Int 1000)] Sample.start (VRef 9%positive) (VRef 10%positive)).
  - vm_compute. reflexivity.
  - vm_compute. reflexivity.
Defined.

(** C5. Constructing the deployer with a wallet that is not an instance of
    [Wallet] throws the invalid-identity error; the store and the log are as
    they were, so nothing was sent to the wallet or the provider. *)
Theorem constructor_rejects_non_wallet (w p o : value) (s : state) :
  instanceof_Wallet (heap s) w = false →
  constructor w p o s = (Throw InvalidIdentity, s)
  ∧ events_since s (constructor w p o s).2 = [].
Proof.
  intros Hw.
  assert (constructor w p o s = (Throw InvalidIdentity, s)) as ->.
  { unfold constructor. by rewrite Hw. }
  split; [done |]. apply events_since_app. by rewrite app_nil_r.
Qed.

(** A plain object, and a string, in place of the wallet. *)
Lemma constructor_rejects_non_wallet_run :
  (constructor (VRef 2%positive) (VRef 2%positive) VUndefined Sample.start
   = (Throw InvalidIdentity, Sample.start)
   ∧ events_since Sample.start
       (constructor (VRef 2%positive) (VRef 2%positive) VUndefined Sample.start).2 = [])
  ∧ (constructor (VStr "0x01") (VRef 2%positive) VUndefined Sample.start
     = (Throw InvalidIdentity, Sample.start)
     ∧ events_since Sample.start
         (constructor (VStr "0x01") (VRef 2%positive) VUndefined Sample.start).2 = []).
Proof.
  split.
  - apply (constructor_rejects_non_wallet (VRef 2%positive) (VRef 2%positive)
             VUndefined Sample.start).
    vm_compute. reflexivity.
  - apply (constructor_rejects_non_wallet (VStr "0x01") (VRef 2%positive)
             VUndefined Sample.start).
    reflexivity.
Defined.

(** C6. For overrides that are an object, with a gasPrice and a gasLimit
    that can be compared with zero (numbers, strings, booleans, [null],
    missing fields, and objects that convert to a number, such as a
    BigNumber), and a transaction that is an object: the apply-overrides
    step returns the transaction and logs nothing; afterwards the
    transaction has the overrides' gasPrice exactly when that gasPrice is
    [> 0] and otherwise the gasPrice field it had, the same for gasLimit,
    each decided by its own override alone; every other field of the
    transaction, its class and every other object are as before. The step
    is the gasPrice check followed by the gasLimit check; [> 0] is the
    order of the integers on an integer, and an object counts as the number
    it converts to. *)
Theorem override_sets_positive_gas_only (W : World) (this : Deployer)
    (lo lt : loc) (s : state) (np nl : number) :
  defaultOverrides this = VRef lo →
  ToNumber W (default VUndefined (own_field (heap s) lo "gasPrice")) = Ret np →
  ToNumber W (default VUndefined (own_field (heap s) lo "gasLimit")) = Ret nl →
  ∃ h',
    _overrideDeployTransactionConfig W this (VRef lt) s
    = (Ret (VRef lt), State h' (trace s))
    ∧ own_field h' lt "gasPrice"
      = (let g := default VUndefined (own_field (heap s) lo "gasPrice") in
         if gt_zero W g then Some g else own_field (heap s) lt "gasPrice")
    ∧ own_field h' lt "gasLimit"
      = (let g := default VUndefined (own_field (heap s) lo "gasLimit") in
         if gt_zero W g then Some g else own_field (heap s) lt "gasLimit")
    ∧ (∀ k, k ≠ "gasPrice" → k ≠ "gasLimit" →
            own_field h' lt k = own_field (heap s) lt k)
    ∧ is_wallet (heap_get h' lt) = is_wallet (heap_get (heap s) lt)
    ∧ (∀ l, l ≠ lt → heap_get h' l = heap_get (heap s) l)
    ∧ (∀ tx s0,
         _overrideDeployTransactionConfig W this tx s0
         = (apply_gas W this tx "gasPrice" ;;
            apply_gas W this tx "gasLimit" ;;
            ret tx) s0)
    ∧ (∀ z, gt_zero W (VNum (Int z)) = bool_decide (0 < z)%Z)
    ∧ (∀ l n, ObjectToNumber W l = Ret n → gt_zero W (VRef l) = gt_zero W (VNum n)).
Proof.
  intros Ho.
  set (gp := default VUndefined (own_field (heap s) lo "gasPrice")).
  set (gl := default VUndefined (own_field (heap s) lo "gasLimit")).
  intros Hnp Hnl.
  assert (read_field (heap s) (defaultOverrides this) "gasPrice" = Ret gp) as Hgp
    by by rewrite Ho.
  assert (read_field (heap s) (defaultOverrides this) "gasLimit" = Ret gl) as Hgl
    by by rewrite Ho.
  eexists. split.
  { rewrite (override_ref W this lt s gp gl Hgp Hgl). by rewrite Hnp, Hnl. }
  split; [| split; [| split; [| split; [| split; [| split; [| split]]]]]].
  - rewrite (own_field_overridden W _ _ _ gp gl _ _ Hgp Hgl).
    by rewrite decide_True.
  - rewrite (own_field_overridden W _ _ _ gp gl _ _ Hgp Hgl).
    rewrite decide_False by (by intros [_ ?]). by rewrite decide_True.
  - intros k Hp Hl. rewrite (own_field_overridden W _ _ _ gp gl _ _ Hgp Hgl).
    rewrite decide_False by (by intros [_ ?]).
    by rewrite decide_False by (by intros [_ ?]).
  - by rewrite !is_wallet_after_gas.
  - intros l Hl. by rewrite !heap_get_after_gas.
  - intros tx s0. rewrite override_steps. by rewrite Ho.
  - apply gt_zero_int.
  - intros l n Hn. unfold gt_zero. simpl. by rewrite Hn.
Qed.

(** The overrides [{gasPrice: 5, gasLimit: 0}] on the transaction at 7:
    gasPrice becomes 5, gasLimit stays 1500000. And the overrides
    [{gasPrice: <BigNumber 5>, gasLimit: 0}]: gasPrice becomes that
    object. *)
Lemma override_sets_positive_gas_only_run :
  (∃ h',
     _overrideDeployTransactionConfig (Sample.world 1)
       (Sample.deployer (VRef 4%positive)) (VRef 7%positive) Sample.start
     = (Ret (VRef 7%positive), State h' [])
     ∧ own_field h' 7%positive "gasPrice" = Some (VNum (Int 5))
     ∧ own_field h' 7%positive "gasLimit" = Some (VNum (Int 1500000))
     ∧ own_field h' 7%positive "data" = Some (VStr "0x600a"))
  ∧ (∃ h',
       _overrideDeployTransactionConfig Numeric.world
         (Sample.deployer (VRef 21%positive)) (VRef 7%positive) Numeric.start
       = (Ret (VRef 7%positive), State h' [])
       ∧ own_field h' 7%positive "gasPrice" = Some (VRef 20%positive)
       ∧ own_field h' 7%positive "gasLimit" = Some (VNum (Int 1500000))).
Proof.
  split.
  - destruct (override_sets_positive_gas_only (Sample.world 1)
                (Sample.deployer (VRef 4%positive)) 4%positive 7%positive
                Sample.start (Int 5) (Int 0) eq_refl eq_refl eq_refl)
      as (h' & Hrun & Hp & Hl & Hk & _).
    exists h'. split; [exact Hrun |].
    split; [exact Hp |]. split; [exact Hl |].
    rewrite (Hk "data"); [reflexivity | discriminate | discriminate].
  - destruct (override_sets_positive_gas_only Numeric.world
                (Sample.deployer (VRef 21%positive)) 21%positive 7%positive
                Numeric.start (Int 5) (Int 0) eq_refl eq_refl eq_refl)
      as (h' & Hrun & Hp & Hl & _).
    exists h'. split; [exact Hrun |].
    split; [exact Hp | exact Hl].
Defined.

(** C7, as stated, fails: a [deploy] that fails before the submission
    submits nothing and fetches no receipt. Here the build step rejects a
    contract without bytecode. *)
Lemma deploy_may_submit_nothing :
  ¬ (submissions (Sample.world 1) (Sample.deployer (VRef 4%positive))
       (VRef 5%positive) [] Sample.start = 1%nat
     ∧ receipts (Sample.world 1) (Sample.deployer (VRef 4%positive))
         (VRef 5%positive) [] Sample.start = 1%nat).
Proof. vm_compute. intros [H _]. discriminate H. Qed.

(** C7, amended. One [deploy] submits at most one transaction and fetches
    at most one receipt, and no receipt without a submission. It has
    submitted exactly one transaction and fetched exactly one receipt
    whenever it returns a result and whenever it got as far as the receipt
    (so also when it then fails on the receipt's status). A [deploy] that
    fails in the pre-validation, the build step or the apply-overrides
    step fails with that error and has submitted nothing and fetched
    nothing; one that fails at the submission fails with that error and
    has fetched no receipt; once the wallet returned, exactly one
    transaction is out, and when the wait then fails [deploy] fails with
    that error and has fetched no receipt. *)
Theorem deploy_submits_at_most_once (W : World) (this : Deployer)
    (contract : value) (args : list value) (s : state) :
  (receipts W this contract args s ≤ submissions W this contract args s ≤ 1)%nat
  ∧ (∀ v, (deploy W this contract args s).1 = Ret v →
          submissions W this contract args s = 1%nat
          ∧ receipts W this contract args s = 1%nat)
  ∧ (∀ fetched s1,
       deploy_until_receipt W this contract args s = (Ret fetched, s1) →
       submissions W this contract args s = 1%nat
       ∧ receipts W this contract args s = 1%nat)
  ∧ (∀ e s1,
       deploy_until_overridden W this contract args s = (Throw e, s1) →
       deploy W this contract args s = (Throw e, s1)
       ∧ submissions W this contract args s = 0%nat
       ∧ receipts W this contract args s = 0%nat)
  ∧ (∀ tx s1 e s2,
       deploy_until_overridden W this contract args s = (Ret tx, s1) →
       _sendDeployTransaction W this tx s1 = (Throw e, s2) →
       deploy W this contract args s = (Throw e, s2)
       ∧ receipts W this contract args s = 0%nat)
  ∧ (∀ transaction s2,
       deploy_until_sent W this contract args s = (Ret transaction, s2) →
       submissions W this contract args s = 1%nat
       ∧ ∀ e s3,
           _waitForDeployTransaction W this transaction s2 = (Throw e, s3) →
           deploy W this contract args s = (Throw e, s3)
           ∧ receipts W this contract args s = 0%nat).
Proof.
  split; [| split; [| split; [| split; [| split]]]].
  - unfold submissions, receipts.
    destruct (submits_once_deploy W this contract args s) as (evs & T & B & _).
    by rewrite (events_since_app _ _ _ T).
  - unfold submissions, receipts.
    destruct (submits_once_deploy W this contract args s) as (evs & T & _ & E).
    by rewrite (events_since_app _ _ _ T).
  - unfold submissions, receipts.
    destruct (submits_once_deploy W this contract args s) as (evs & T & B & E).
    rewrite (events_since_app _ _ _ T).
    intros fetched s1 Hrun.
    destruct (submits_once_deploy_until_receipt W this contract args s)
      as (evs1 & T1 & _ & E1).
    rewrite Hrun in T1, E1. simpl in T1, E1.
    destruct (E1 fetched eq_refl) as [S1 R1].
    destruct (quiet_bind
                (_postValidateTransaction W this contract fetched.1 fetched.2)
                (λ _, _generateDeploymentResult W this contract fetched.1 fetched.2)
                (quiet_postValidateTransaction W this contract fetched.1 fetched.2)
                (λ _, quiet_generateDeploymentResult W this contract fetched.1 fetched.2)
                s1) as (evs2 & T2 & S2 & R2).
    assert (evs = evs1 ++ evs2) as ->.
    { apply (app_inv_head (trace s)). rewrite <- T, app_assoc, <- T1, <- T2.
      by rewrite deploy_split, run_bind, Hrun. }
    rewrite !count_events_app. lia.
  - intros e s1. apply stopped_before_submission.
  - intros tx s1 e s2. apply stopped_at_submission.
  - intros transaction s2. apply stopped_after_submission.
Qed.

(** The scenario of the spec submits once and fetches once, with a
    receipt that succeeded and with one that failed; a wallet that cannot
    pay leaves one submission and no receipt, a provider that gives up
    waiting likewise, and a contract without bytecode leaves nothing. *)
Lemma deploy_submits_at_most_once_run :
  (submissions (Sample.world 1) (Sample.deployer (VRef 4%positive))
     (VRef 3%positive) [VNum (Int 1000)] Sample.start = 1%nat
   ∧ receipts (Sample.world 1) (Sample.deployer (VRef 4%positive))
       (VRef 3%positive) [VNum (Int 1000)] Sample.start = 1%nat)
  ∧ (submissions (Sample.world 0) (Sample.deployer (VRef 4%positive))
       (VRef 3%positive) [VNum (Int 1000)] Sample.start = 1%nat
     ∧ receipts (Sample.world 0) (Sample.deployer (VRef 4%positive))
         (VRef 3%positive) [VNum (Int 1000)] Sample.start = 1%nat)
  ∧ (deploy (Sample.world 1) (Sample.deployer (VRef 4%positive))
       (VRef 5%positive) [] Sample.start
     = (Throw (JsError "invalid bytecode"),
        (deploy_until_overridden (Sample.world 1)
           (Sample.deployer (VRef 4%positive)) (VRef 5%positive) []
           Sample.start).2)
     ∧ submissions (Sample.world 1) (Sample.deployer (VRef 4%positive))
         (VRef 5%positive) [] Sample.start = 0%nat
     ∧ receipts (Sample.world 1) (Sample.deployer (VRef 4%positive))
         (VRef 5%positive) [] Sample.start = 0%nat)
  ∧ (deploy Faulty.rejecting (Sample.deployer (VRef 4%positive))
       (VRef 3%positive) [] Sample.start
     = (Throw (Rejected (VStr "insufficient funds")),
        (deploy_until_sent Faulty.rejecting (Sample.deployer (VRef 4%positive))
           (VRef 3%positive) [] Sample.start).2)
     ∧ receipts Faulty.rejecting (Sample.deployer (VRef 4%positive))
         (VRef 3%positive) [] Sample.start = 0%nat)
  ∧ (submissions Faulty.stalling (Sample.deployer (VRef 4%positive))
       (VRef 3%positive) [] Sample.start = 1%nat
     ∧ deploy Faulty.stalling (Sample.deployer (VRef 4%positive))
         (VRef 3%positive) [] Sample.start
       = (Throw (Rejected (VStr "timeout")),
          (deploy Faulty.stalling (Sample.deployer (VRef 4%positive))
             (VRef 3%positive) [] Sample.start).2)
     ∧ receipts Faulty.stalling (Sample.deployer (VRef 4%positive))
         (VRef 3%positive) [] Sample.start = 0%nat).
Proof.
  split; [| split; [| split; [| split]]].
  - apply (proj1 (proj2 (deploy_submits_at_most_once (Sample.world 1)
                           (Sample.deployer (VRef 4%positive)) (VRef 3%positive)
                           [VNum (Int 1000)] Sample.start))
             (VStr "0xABC")).
    vm_compute. reflexivity.
  - apply (proj1 (proj2 (proj2 (deploy_submits_at_most_once (Sample.world 0)
                           (Sample.deployer (VRef 4%positive)) (VRef 3%positive)
                           [VNum (Int 1000)] Sample.start)))
             (VRef 9%positive, VRef 10%positive)
             (deploy_until_receipt (Sample.world 0)
                (Sample.deployer (VRef 4%positive)) (VRef 3%positive)
                [VNum (Int 1000)] Sample.start).2).
    vm_compute. reflexivity.
  - apply (proj1 (proj2 (proj2 (proj2 (deploy_submits_at_most_once (Sample.world 1)
                           (Sample.deployer (VRef 4%positive)) (VRef 5%positive)
                           [] Sample.start))))).
    vm_compute. reflexivity.
  - apply (proj1 (proj2 (proj2 (proj2 (proj2
             (deploy_submits_at_most_once Faulty.rejecting
                (Sample.deployer (VRef 4%positive)) (VRef 3%positive)
                [] Sample.start)))))
             (VRef 8%positive)
             (deploy_until_overridden Faulty.rejecting
                (Sample.deployer (VRef 4%positive)) (VRef 3%positive) []
                Sample.start).2).
    + vm_compute. reflexivity.
    + vm_compute. reflexivity.
  - destruct (proj2 (proj2 (proj2 (proj2 (proj2
                (deploy_submits_at_most_once Faulty.stalling
                   (Sample.deployer (VRef 4%positive)) (VRef 3%positive)
                   [] Sample.start)))))
                (VRef 9%positive)
                (deploy_until_sent Faulty.stalling
                   (Sample.deployer (VRef 4%positive)) (VRef 3%positive) []
                   Sample.start).2) as [Hs Hw].
    { vm_compute. reflexivity. }
    split; [exact Hs |].
    apply (Hw (Rejected (VStr "timeout"))).
    vm_compute. reflexivity.
Defined.

(** C8. Constructing the deployer with a wallet assigns the provider to
    the [provider] field of the wallet object itself: the deployer holds
    the caller's reference, and behind that reference the field now reads
    as the supplied provider. The wallet differs from what it was whenever
    that field did not already hold this provider; its other fields and
    every other object are as before. *)
Theorem constructor_assigns_wallet_provider (w p o : value) (s : state) :
  instanceof_Wallet (heap s) w = true →
  ∃ lw,
    w = VRef lw
    ∧ constructor w p o s
      = (Ret {| wallet := w; provider := p; defaultOverrides := o |},
         State (store_field (heap s) lw "provider" p) (trace s))
    ∧ own_field (store_field (heap s) lw "provider" p) lw "provider" = Some p
    ∧ read_field (store_field (heap s) lw "provider" p) w "provider" = Ret p
    ∧ (own_field (heap s) lw "provider" ≠ Some p →
       heap_get (store_field (heap s) lw "provider" p) lw ≠ heap_get (heap s) lw)
    ∧ (∀ k, k ≠ "provider" →
            own_field (store_field (heap s) lw "provider" p) lw k
            = own_field (heap s) lw k)
    ∧ (∀ l, l ≠ lw →
            heap_get (store_field (heap s) lw "provider" p) l = heap_get (heap s) l).
Proof.
  intros Hw. destruct w as [| |b|n|str|lw]; try discriminate Hw.
  exists lw. split; [done |].
  assert (own_field (store_field (heap s) lw "provider" p) lw "provider" = Some p)
    as Hown.
  { rewrite own_field_store_field. by rewrite decide_True. }
  split; [| split; [exact Hown | split; [| split; [| split]]]].
  - unfold constructor. by rewrite Hw.
  - by rewrite read_field_ref, Hown.
  - intros Hne Heq. apply Hne. unfold own_field in *. by rewrite <- Heq.
  - intros k Hk. rewrite own_field_store_field.
    rewrite decide_False; [done | by intros [_ ?]].
  - intros l Hl. rewrite heap_get_store_field. by rewrite decide_False.
Qed.

(** The wallet of the caller, which had no provider, has the provider at 2
    after the construction. *)
Lemma constructor_assigns_wallet_provider_run :
  ∃ s', constructor (VRef 1%positive) (VRef 2%positive) VUndefined Sample.start
        = (Ret (Sample.deployer VUndefined), s')
        ∧ own_field (heap Sample.start) 1%positive "provider" = None
        ∧ own_field (heap s') 1%positive "provider" = Some (VRef 2%positive)
        ∧ heap_get (heap s') 1%positive ≠ heap_get (heap Sample.start) 1%positive.
Proof.
  destruct (constructor_assigns_wallet_provider (VRef 1%positive) (VRef 2%positive)
              VUndefined Sample.start eq_refl)
    as (lw & Hlw & Hrun & Hown & _ & Hne & _).
  injection Hlw as <-.
  eexists. split; [exact Hrun |].
  split; [reflexivity |]. split; [exact Hown |].
  apply Hne. discriminate.
Defined.

(** C9. Only [undefined] counts as no overrides. For any other value the
    step runs its two checks. When the checks find a gasPrice and a
    gasLimit that compare with zero and are not above it, as with an empty
    object, an object with other fields only or a primitive (their gas
    fields read as [undefined]), the step returns the transaction in an
    unchanged store. With [null] the first read throws a TypeError, and a
    [deploy] that has built its transaction fails there, in the state the
    build step left, with nothing submitted. *)
Theorem overrides_absent_only_if_undefined (W : World) (this : Deployer)
    (tx : value) (s : state) :
  (strict_eq (defaultOverrides this) VUndefined = true
   ↔ defaultOverrides this = VUndefined)
  ∧ (defaultOverrides this ≠ VUndefined →
     _overrideDeployTransactionConfig W this tx s
     = (apply_gas W this tx "gasPrice" ;;
        apply_gas W this tx "gasLimit" ;;
        ret tx) s)
  ∧ (∀ gp gl np nl,
       read_field (heap s) (defaultOverrides this) "gasPrice" = Ret gp →
       read_field (heap s) (defaultOverrides this) "gasLimit" = Ret gl →
       ToNumber W gp = Ret np →
       ToNumber W gl = Ret nl →
       gt_zero W gp = false →
       gt_zero W gl = false →
       _overrideDeployTransactionConfig W this tx s = (Ret tx, s))
  ∧ (∀ lo,
       defaultOverrides this = VRef lo →
       own_field (heap s) lo "gasPrice" = None →
       own_field (heap s) lo "gasLimit" = None →
       _overrideDeployTransactionConfig W this tx s = (Ret tx, s))
  ∧ (defaultOverrides this = VNull →
     _overrideDeployTransactionConfig W this tx s = (Throw TypeError, s)
     ∧ ∀ contract args s0,
         deploy_until_built W this contract args s0 = (Ret tx, s) →
         deploy W this contract args s0 = (Throw TypeError, s)
         ∧ count_events is_send (events_since s0 s) = 0%nat).
Proof.
  split; [apply strict_eq_undefined |].
  split.
  { intros Hu. rewrite override_steps.
    destruct (strict_eq (defaultOverrides this) VUndefined) eqn:E; [| done].
    by apply strict_eq_undefined in E. }
  split; [intros gp gl np nl; apply override_skip |].
  split.
  { intros lo Ho Hp Hl.
    apply (override_skip W this tx s VUndefined VUndefined NaN NaN);
      rewrite ?Ho, ?read_field_ref, ?Hp, ?Hl; done. }
  intros Hn.
  assert (_overrideDeployTransactionConfig W this tx s = (Throw TypeError, s)) as Hthrow.
  { apply override_unreadable; by rewrite Hn. }
  split; [exact Hthrow |].
  intros contract args s0 Hbuilt. split.
  - by rewrite deploy_steps, run_bind, Hbuilt, run_bind, Hthrow.
  - assert (quiet (deploy_until_built W this contract args)) as Hq.
    { apply quiet_bind; [apply quiet_preValidateArguments | intros _].
      apply quiet_prepareDeployTransaction. }
    destruct (Hq s0) as (evs & T & S & _). rewrite Hbuilt in T. simpl in T.
    by rewrite (events_since_app _ _ _ T).
Qed.

(** With [null] the deployment of the Token contract fails once the
    transaction is built; with the empty object at 5 the transaction at 7
    comes back as it was. *)
Lemma overrides_absent_only_if_undefined_run :
  (deploy (Sample.world 1) (Sample.deployer VNull) (VRef 3%positive) [] Sample.start
   = (Throw TypeError,
      (deploy_until_built (Sample.world 1) (Sample.deployer VNull)
         (VRef 3%positive) [] Sample.start).2)
   ∧ count_events is_send
       (events_since Sample.start
          (deploy_until_built (Sample.world 1) (Sample.deployer VNull)
             (VRef 3%positive) [] Sample.start).2) = 0%nat)
  ∧ _overrideDeployTransactionConfig (Sample.world 1)
      (Sample.deployer (VRef 5%positive)) (VRef 7%positive) Sample.start
    = (Ret (VRef 7%positive), Sample.start).
Proof.
  split.
  - apply (proj2 (proj2 (proj2 (proj2 (proj2
             (overrides_absent_only_if_undefined (Sample.world 1)
                (Sample.deployer VNull) (VRef 8%positive)
                (deploy_until_built (Sample.world 1) (Sample.deployer VNull)
                   (VRef 3%positive) [] Sample.start).2))))
             eq_refl)).
    vm_compute. reflexivity.
  - apply (proj1 (proj2 (proj2 (proj2
             (overrides_absent_only_if_undefined (Sample.world 1)
                (Sample.deployer (VRef 5%positive)) (VRef 7%positive)
                Sample.start))))
             5%positive); reflexivity.
Defined.

(** C10. The apply-overrides step returns the value it was given, the
    same reference and not a copy, and logs nothing; it writes to the
    object behind that reference and leaves every other object as it was.
    Applying the step to its own result gives the outcome and the store
    of applying it once. *)
Theorem override_idempotent_in_place (W : World) (this : Deployer)
    (tx : value) (s : state) :
  (∀ v s', _overrideDeployTransactionConfig W this tx s = (Ret v, s') →
           v = tx ∧ trace s' = trace s)
  ∧ (∀ l, tx ≠ VRef l →
          heap_get (heap (_overrideDeployTransactionConfig W this tx s).2) l
          = heap_get (heap s) l)
  ∧ (_overrideDeployTransactionConfig W this tx
       ≫= _overrideDeployTransactionConfig W this) s
    = _overrideDeployTransactionConfig W this tx s.
Proof.
  split; [| split; [apply override_frame | apply override_again]].
  intros v s' Hrun.
  destruct (override_result W this tx s) as (h' & Hs & Hv).
  rewrite Hrun in Hs, Hv. simpl in Hs, Hv. subst s'.
  split; [| done].
  destruct Hv as [[= ->] | [e [=]]]. done.
Qed.

(** ** Further properties of the deployer *)

(** X1. [deploy] called without a contract ([undefined], or [null]) fails
    with a TypeError on its first statement: nothing is logged, built or
    submitted, the state is as it was. *)
Theorem deploy_without_contract_fails_first (W : World) (this : Deployer)
    (contract : value) (args : list value) (s : state) :
  contract = VUndefined ∨ contract = VNull →
  deploy W this contract args s = (Throw TypeError, s).
Proof.
  intros Hc. unfold deploy. rewrite run_bind.
  rewrite preValidate_nullish; [done | by destruct Hc as [-> | ->]].
Qed.

Lemma deploy_without_contract_fails_first_run :
  deploy (Sample.world 1) (Sample.deployer (VRef 4%positive)) VUndefined
    [VNum (Int 1000)] Sample.start
  = (Throw TypeError, Sample.start).
Proof.
  apply (deploy_without_contract_fails_first (Sample.world 1)
           (Sample.deployer (VRef 4%positive)) VUndefined [VNum (Int 1000)]
           Sample.start).
  left. reflexivity.
Defined.

(** X2. [_preValidateArguments] validates nothing: for any contract that
    is not [undefined] or [null], with or without a name, and for any
    arguments it succeeds, leaves the store alone and logs exactly one
    line. Without arguments the line names the contract only; with
    arguments it goes on with them. *)
Theorem preValidate_accepts_any_arguments (W : World) (this : Deployer)
    (contract : value) (s : state) :
  contract ≠ VUndefined →
  contract ≠ VNull →
  ∃ name,
    read_field (heap s) contract "contractName" = Ret name
    ∧ _preValidateArguments W this contract [] s
      = (Ret tt,
         State (heap s)
           (trace s ++ [EvLog (newline +:+ "Deploying contract: " +:+ colorName W name)]))
    ∧ ∀ arg args,
        _preValidateArguments W this contract (arg :: args) s
        = (Ret tt,
           State (heap s)
             (trace s ++
              [EvLog ((newline +:+ "Deploying contract: " +:+ colorName W name)
                      +:+ " with arguments: " +:+ colorParams W (arg :: args))])).
Proof.
  intros Hu Hn.
  destruct (read_field_not_nullish (heap s) contract "contractName") as [name Hname].
  { by destruct contract. }
  exists name. split; [done |]. split.
  - rewrite (preValidate_ret W this contract [] s name Hname). simpl.
    by rewrite string_app_nil_r.
  - intros arg args. by rewrite (preValidate_ret W this contract _ s name Hname).
Qed.

(** An empty object as the contract: its name reads as [undefined]. *)
Lemma preValidate_accepts_any_arguments_run :
  ∃ name,
    read_field (heap Sample.start) (VRef 5%positive) "contractName" = Ret name
    ∧ _preValidateArguments (Sample.world 1) (Sample.deployer VUndefined)
        (VRef 5%positive) [] Sample.start
      = (Ret tt,
         State (heap Sample.start)
           (trace Sample.start ++
            [EvLog (newline +:+ "Deploying contract: "
                    +:+ colorName (Sample.world 1) name)]))
    ∧ ∀ arg args,
        _preValidateArguments (Sample.world 1) (Sample.deployer VUndefined)
          (VRef 5%positive) (arg :: args) Sample.start
        = (Ret tt,
           State (heap Sample.start)
             (trace Sample.start ++
              [EvLog ((newline +:+ "Deploying contract: "
                       +:+ colorName (Sample.world 1) name)
                      +:+ " with arguments: "
                      +:+ colorParams (Sample.world 1) (arg :: args))])).
Proof.
  apply (preValidate_accepts_any_arguments (Sample.world 1)
           (Sample.deployer VUndefined) (VRef 5%positive) Sample.start);
    discriminate.
Defined.

(** X3. A [deploy] that fails before the submission, in the pre-validation,
    the build step or the apply-overrides step, fails with that error in
    the state that step left: it has logged at most its first line, and it
    has submitted nothing and fetched no receipt. *)
Theorem failure_before_submission_submits_nothing (W : World) (this : Deployer)
    (contract : value) (args : list value) (s : state) (e : error) (s1 : state) :
  deploy_until_overridden W this contract args s = (Throw e, s1) →
  deploy W this contract args s = (Throw e, s1)
  ∧ (events_since s s1 = [] ∨ ∃ line, events_since s s1 = [EvLog line])
  ∧ submissions W this contract args s = 0%nat
  ∧ receipts W this contract args s = 0%nat.
Proof.
  intros Hrun.
  assert (deploy W this contract args s = (Throw e, s1)) as Hd.
  { by rewrite deploy_from_overridden, run_bind, Hrun. }
  split; [exact Hd |].
  unfold submissions, receipts. rewrite Hd. simpl.
  destruct (until_overridden_throw W _ _ _ _ _ _ Hrun) as [T | [line T]].
  - rewrite <- (app_nil_r (trace s)) in T.
    rewrite (events_since_app _ _ _ T). split; [by left | done].
  - rewrite (events_since_app _ _ _ T). split; [right; by exists line | done].
Qed.

(** The build step rejects the contract without bytecode. *)
Lemma failure_before_submission_submits_nothing_run :
  deploy (Sample.world 1) (Sample.deployer (VRef 4%positive)) (VRef 5%positive) []
    Sample.start
  = (Throw (JsError "invalid bytecode"),
     (deploy_until_overridden (Sample.world 1) (Sample.deployer (VRef 4%positive))
        (VRef 5%positive) [] Sample.start).2)
  ∧ (events_since Sample.start
       (deploy_until_overridden (Sample.world 1) (Sample.deployer (VRef 4%positive))
          (VRef 5%positive) [] Sample.start).2 = []
     ∨ ∃ line,
         events_since Sample.start
           (deploy_until_overridden (Sample.world 1) (Sample.deployer (VRef 4%positive))
              (VRef 5%positive) [] Sample.start).2 = [EvLog line])
  ∧ submissions (Sample.world 1) (Sample.deployer (VRef 4%positive))
      (VRef 5%positive) [] Sample.start = 0%nat
  ∧ receipts (Sample.world 1) (Sample.deployer (VRef 4%positive))
      (VRef 5%positive) [] Sample.start = 0%nat.
Proof.
  apply (failure_before_submission_submits_nothing (Sample.world 1)
           (Sample.deployer (VRef 4%positive)) (VRef 5%positive) [] Sample.start).
  vm_compute. reflexivity.
Defined.

(** X4. When the wallet rejects the transaction, [deploy] fails with the
    wallet's error, unchanged: the transaction was handed to the wallet
    once, and [deploy] neither waits for it nor asks for a receipt. *)
Theorem submission_rejection_propagates (W : World) (this : Deployer)
    (contract : value) (args : list value) (s : state)
    (tx : value) (s1 : state) (e : error) (h2 : gmap loc obj) :
  deploy_until_overridden W this contract args s = (Ret tx, s1) →
  nullish (wallet this) = false →
  sendTransaction W (wallet this) tx (heap s1) = (Throw e, h2) →
  ∃ line,
    deploy W this contract args s
    = (Throw e, State h2 (trace s ++ [EvLog line; EvSend (wallet this) tx]))
    ∧ submissions W this contract args s = 1%nat
    ∧ receipts W this contract args s = 0%nat.
Proof.
  intros Hov Hw Hsend.
  destruct (until_overridden_ret W _ _ _ _ _ _ Hov) as (name & s0 & _ & _ & _ & T1).
  match type of T1 with _ = _ ++ [EvLog ?l] => set (line := l) in * end.
  exists line.
  assert (deploy W this contract args s
          = (Throw e, State h2 (trace s ++ [EvLog line; EvSend (wallet this) tx]))) as Hd.
  { rewrite deploy_from_overridden, run_bind, Hov.
    unfold deploy_from_submission. rewrite run_bind, (send_run W this tx s1 Hw).
    rewrite Hsend. simpl. by rewrite T1, <- app_assoc. }
  split; [exact Hd |].
  unfold submissions, receipts. rewrite Hd. simpl.
  by rewrite (events_since_app s (State h2 _)
                [EvLog line; EvSend (wallet this) tx] eq_refl).
Qed.

Lemma submission_rejection_propagates_run :
  ∃ line,
    deploy Faulty.rejecting (Sample.deployer (VRef 4%positive)) (VRef 3%positive)
      [VNum (Int 1000)] Sample.start
    = (Throw (Rejected (VStr "insufficient funds")),
       State (heap (deploy_until_overridden Faulty.rejecting
                      (Sample.deployer (VRef 4%positive)) (VRef 3%positive)
                      [VNum (Int 1000)] Sample.start).2)
         (trace Sample.start ++
          [EvLog line; EvSend (wallet (Sample.deployer (VRef 4%positive)))
                         (VRef 8%positive)]))
    ∧ submissions Faulty.rejecting (Sample.deployer (VRef 4%positive))
        (VRef 3%positive) [VNum (Int 1000)] Sample.start = 1%nat
    ∧ receipts Faulty.rejecting (Sample.deployer (VRef 4%positive))
        (VRef 3%positive) [VNum (Int 1000)] Sample.start = 0%nat.
Proof.
  apply (submission_rejection_propagates Faulty.rejecting
           (Sample.deployer (VRef 4%positive)) (VRef 3%positive)
           [VNum (Int 1000)] Sample.start (VRef 8%positive)
           (deploy_until_overridden Faulty.rejecting
              (Sample.deployer (VRef 4%positive)) (VRef 3%positive)
              [VNum (Int 1000)] Sample.start).2).
  - vm_compute. reflexivity.
  - reflexivity.
  - vm_compute. reflexivity.
Defined.

(** X5. What a [deploy] that returns has done, in order: it logged its
    first line, handed the wallet the very transaction the build step
    returned (the same reference, whatever the overrides), logged that it
    waits, waited at the provider for the hash of the transaction the wallet
    returned, fetched the receipt at the provider, and logged the address;
    no other call and no other line. *)
Theorem deploy_success_trace (W : World) (this : Deployer)
    (contract : value) (args : list value) (s : state) (v : value) (s' : state) :
  deploy W this contract args s = (Ret v, s') →
  ∃ built s0 transaction s2 hash hash' l1 l2 l3,
    deploy_until_built W this contract args s = (Ret built, s0)
    ∧ deploy_until_sent W this contract args s = (Ret transaction, s2)
    ∧ read_field (heap s2) transaction "hash" = Ret hash
    ∧ events_since s s'
      = [EvLog l1; EvSend (wallet this) built; EvLog l2;
         EvWait (provider this) hash; EvReceipt (provider this) hash'; EvLog l3].
Proof.
  rewrite deploy_from_sent, run_bind.
  destruct (deploy_until_sent W this contract args s) as [[t|e] s2] eqn:Hsent; [| done].
  destruct (until_sent_ret W _ _ _ _ _ _ Hsent) as (tx & s1 & l1 & Hov & Hw & _ & _ & T2).
  destruct (until_overridden_ret W _ _ _ _ _ _ Hov) as (name & s0 & Hname & Hbuilt & _ & _).
  rewrite run_bind.
  destruct (nullish t) eqn:Ht.
  { by rewrite wait_nullish. }
  destruct (read_field_not_nullish (heap s2) t "hash" Ht) as [hash Hh].
  destruct (nullish (provider this)) eqn:Hp.
  { by rewrite (wait_no_provider W this t s2 hash Hh Hp). }
  rewrite (wait_run W this t s2 hash Hh Hp).
  destruct (waitForTransaction W (provider this) hash (heap s2)) as [[u|e] h3];
    simpl; [| done].
  rewrite run_bind.
  match goal with |- context [_getTransactionReceipt W this t ?st] => set (s3 := st) end.
  destruct (read_field_not_nullish (heap s3) t "hash" Ht) as [hash' Hh'].
  rewrite (receipt_run W this t s3 hash' Hh' Hp).
  destruct (getTransactionReceipt W (provider this) hash' (heap s3)) as [[r|e] h4];
    simpl; [| done].
  rewrite run_bind.
  match goal with
  | |- context [_postValidateTransaction W this contract t r ?st] => set (s4 := st)
  end.
  destruct (postValidate_cases W this contract t r s4) as [[-> _]|[e ->]]; [| done].
  intros Hgen.
  destruct (generateDeploymentResult_ret W _ _ _ _ _ _ _ Hgen) as [Ha _].
  destruct (read_field_not_nullish (heap s4) contract "contractName"
              (read_field_ret_not_nullish _ _ _ _ Hname)) as [name' Hname'].
  rewrite (generate_run W this contract t r s4 name' v Hname' Ha) in Hgen.
  injection Hgen as <-.
  exists tx, s0, t, s2, hash, hash', l1. do 2 eexists.
  split; [exact Hbuilt |]. split; [done |]. split; [exact Hh |].
  apply events_since_app. subst s4 s3. simpl. rewrite T2.
  by rewrite <- !app_assoc.
Qed.

(** The Token scenario. *)
Lemma deploy_success_trace_run :
  ∃ built s0 transaction s2 hash hash' l1 l2 l3,
    deploy_until_built (Sample.world 1) (Sample.deployer (VRef 4%positive))
      (VRef 3%positive) [VNum (Int 1000)] Sample.start = (Ret built, s0)
    ∧ deploy_until_sent (Sample.world 1) (Sample.deployer (VRef 4%positive))
        (VRef 3%positive) [VNum (Int 1000)] Sample.start = (Ret transaction, s2)
    ∧ read_field (heap s2) transaction "hash" = Ret hash
    ∧ events_since Sample.start
        (deploy (Sample.world 1) (Sample.deployer (VRef 4%positive))
           (VRef 3%positive) [VNum (Int 1000)] Sample.start).2
      = [EvLog l1; EvSend (wallet (Sample.deployer (VRef 4%positive))) built;
         EvLog l2; EvWait (provider (Sample.deployer (VRef 4%positive))) hash;
         EvReceipt (provider (Sample.deployer (VRef 4%positive))) hash'; EvLog l3].
Proof.
  apply (deploy_success_trace (Sample.world 1) (Sample.deployer (VRef 4%positive))
           (VRef 3%positive) [VNum (Int 1000)] Sample.start (VStr "0xABC")).
  vm_compute. reflexivity.
Defined.

(** X6. The receipt check rejects the status [0] and nothing else. When
    [deploy] has fetched a receipt whose status is any other value, a
    missing status included, it returns: the result is what the receipt's
    contractAddress reads as ([undefined] when there is none), and the last
    line of the log names the contract and that address. *)
Theorem receipt_without_failure_status_returns (W : World) (this : Deployer)
    (contract : value) (args : list value) (s : state)
    (transaction receipt : value) (s1 : state) (status : value) :
  deploy_until_receipt W this contract args s = (Ret (transaction, receipt), s1) →
  read_field (heap s1) receipt "status" = Ret status →
  status ≠ VNum (Int 0) →
  ∃ name address,
    read_field (heap s1) contract "contractName" = Ret name
    ∧ read_field (heap s1) receipt "contractAddress" = Ret address
    ∧ deploy W this contract args s
      = (Ret address,
         State (heap s1)
           (trace s1 ++
            [EvLog ("Contract " +:+ colorName W name +:+ " deployed at address: "
                    +:+ colorAddress W address)])).
Proof.
  intros Hrun Hst Hne.
  destruct (read_field_not_nullish (heap s1) contract "contractName"
              (until_receipt_not_nullish W _ _ _ _ _ _ Hrun)) as [name Hname].
  destruct (read_field_ret_other _ _ _ "contractAddress" _ Hst) as [address Ha].
  exists name, address. split; [done |]. split; [done |].
  rewrite deploy_split, run_bind, Hrun. simpl.
  rewrite run_bind, (postValidate_pass W this contract _ _ s1 status Hst Hne).
  by rewrite (generate_run W this contract _ _ s1 name address Hname Ha).
Qed.

(** A receipt that has a transaction hash and nothing else. *)
Lemma receipt_without_failure_status_returns_run :
  ∃ name address,
    read_field
      (heap (deploy_until_receipt Faulty.bare (Sample.deployer (VRef 4%positive))
               (VRef 3%positive) [] Sample.start).2)
      (VRef 3%positive) "contractName" = Ret name
    ∧ read_field
        (heap (deploy_until_receipt Faulty.bare (Sample.deployer (VRef 4%positive))
                 (VRef 3%positive) [] Sample.start).2)
        (VRef 10%positive) "contractAddress" = Ret address
    ∧ deploy Faulty.bare (Sample.deployer (VRef 4%positive)) (VRef 3%positive) []
        Sample.start
      = (Ret address,
         State
           (heap (deploy_until_receipt Faulty.bare (Sample.deployer (VRef 4%positive))
                    (VRef 3%positive) [] Sample.start).2)
           (trace (deploy_until_receipt Faulty.bare
                     (Sample.deployer (VRef 4%positive))
                     (VRef 3%positive) [] Sample.start).2 ++
            [EvLog ("Contract " +:+ colorName Faulty.bare name
                    +:+ " deployed at address: "
                    +:+ colorAddress Faulty.bare address)])).
Proof.
  apply (receipt_without_failure_status_returns Faulty.bare
           (Sample.deployer (VRef 4%positive)) (VRef 3%positive) [] Sample.start
           (VRef 9%positive) (VRef 10%positive) _ VUndefined).
  - vm_compute. reflexivity.
  - vm_compute. reflexivity.
  - discriminate.
Defined.

(** X7. When the provider has no receipt for the transaction and answers
    [null] (or [undefined]), [deploy] fails with a TypeError on reading the
    status, in the state the fetch left; it returns nothing. *)
Theorem missing_receipt_fails_deploy (W : World) (this : Deployer)
    (contract : value) (args : list value) (s : state)
    (transaction receipt : value) (s1 : state) :
  deploy_until_receipt W this contract args s = (Ret (transaction, receipt), s1) →
  receipt = VNull ∨ receipt = VUndefined →
  deploy W this contract args s = (Throw TypeError, s1).
Proof.
  intros Hrun Hr.
  rewrite deploy_split, run_bind, Hrun. simpl. rewrite run_bind.
  unfold _postValidateTransaction, get_field. rewrite run_bind.
  by destruct Hr as [-> | ->].
Qed.

Lemma missing_receipt_fails_deploy_run :
  deploy Faulty.unmined (Sample.deployer (VRef 4%positive)) (VRef 3%positive) []
    Sample.start
  = (Throw TypeError,
     (deploy_until_receipt Faulty.unmined (Sample.deployer (VRef 4%positive))
        (VRef 3%positive) [] Sample.start).2).
Proof.
  apply (missing_receipt_fails_deploy Faulty.unmined
           (Sample.deployer (VRef 4%positive)) (VRef 3%positive) [] Sample.start
           (VRef 9%positive) VNull).
  - vm_compute. reflexivity.
  - left. reflexivity.
Defined.

(** X8. The constructor does not look at the provider, but a deployer
    whose provider is [undefined] or [null] cannot deploy: every [deploy]
    fails, at the latest with the TypeError of turning to the provider to
    wait, and it never calls the provider, neither to wait nor for a
    receipt. *)
Theorem deploy_without_provider_always_fails (W : World) (this : Deployer)
    (contract : value) (args : list value) (s : state) :
  provider this = VUndefined ∨ provider this = VNull →
  ∃ e s',
    deploy W this contract args s = (Throw e, s')
    ∧ count_events is_wait (events_since s s') = 0%nat
    ∧ count_events is_receipt (events_since s s') = 0%nat.
Proof.
  intros Hp.
  assert (nullish (provider this) = true) as Hn by (by destruct Hp as [-> | ->]).
  rewrite deploy_from_overridden, run_bind.
  destruct (deploy_until_overridden W this contract args s) as [[tx|e] s1] eqn:Hov.
  2:{ exists e, s1. split; [done |].
      destruct (until_overridden_throw W _ _ _ _ _ _ Hov) as [T | [line T]].
      - rewrite <- (app_nil_r (trace s)) in T.
        by rewrite (events_since_app _ _ _ T).
      - by rewrite (events_since_app _ _ _ T). }
  destruct (until_overridden_ret W _ _ _ _ _ _ Hov) as (name & s0 & _ & _ & _ & T1).
  unfold deploy_from_submission. rewrite run_bind.
  destruct (nullish (wallet this)) eqn:Hw.
  { rewrite (send_nullish W this tx s1 Hw). exists TypeError, s1.
    split; [done |]. by rewrite (events_since_app _ _ _ T1). }
  rewrite (send_run W this tx s1 Hw).
  destruct (sendTransaction W (wallet this) tx (heap s1)) as [[t|e] h2]; simpl.
  2:{ do 2 eexists. split; [done |].
      erewrite events_since_app; [| simpl; by rewrite T1, <- app_assoc]. done. }
  rewrite run_bind.
  destruct (nullish t) eqn:Ht.
  { rewrite wait_nullish by done. do 2 eexists. split; [done |].
    erewrite events_since_app; [| simpl; by rewrite T1, <- app_assoc]. done. }
  match goal with
  | |- context [_waitForDeployTransaction W this t ?st] => set (s2 := st)
  end.
  destruct (read_field_not_nullish (heap s2) t "hash" Ht) as [hash Hh].
  rewrite (wait_no_provider W this t s2 hash Hh Hn).
  do 2 eexists. split; [done |].
  erewrite events_since_app; [| subst s2; simpl; by rewrite T1, <- !app_assoc].
  done.
Qed.

(** The sample wallet would send; the deployment still fails. *)
Lemma deploy_without_provider_always_fails_run :
  ∃ e s',
    deploy (Sample.world 1) Faulty.without_provider (VRef 3%positive) [] Sample.start
    = (Throw e, s')
    ∧ count_events is_wait (events_since Sample.start s') = 0%nat
    ∧ count_events is_receipt (events_since Sample.start s') = 0%nat.
Proof.
  apply (deploy_without_provider_always_fails (Sample.world 1)
           Faulty.without_provider (VRef 3%positive) [] Sample.start).
  left. reflexivity.
Defined.

(** X9. When the provider gives up waiting, [deploy] fails with the
    provider's error, unchanged, after one submission and one wait; it
    does not ask for a receipt. *)
Theorem wait_failure_propagates (W : World) (this : Deployer)
    (contract : value) (args : list value) (s : state)
    (transaction : value) (s2 : state) (hash : value) (e : error)
    (h3 : gmap loc obj) :
  deploy_until_sent W this contract args s = (Ret transaction, s2) →
  read_field (heap s2) transaction "hash" = Ret hash →
  nullish (provider this) = false →
  waitForTransaction W (provider this) hash (heap s2) = (Throw e, h3) →
  ∃ tx l1 l2,
    deploy W this contract args s
    = (Throw e,
       State h3
         (trace s ++ [EvLog l1; EvSend (wallet this) tx; EvLog l2;
                      EvWait (provider this) hash]))
    ∧ submissions W this contract args s = 1%nat
    ∧ receipts W this contract args s = 0%nat.
Proof.
  intros Hsent Hhash Hp Hwait.
  destruct (until_sent_ret W _ _ _ _ _ _ Hsent) as (tx & s1 & l1 & _ & _ & _ & _ & T2).
  exists tx, l1,
    ("Waiting for transaction to be included in block and mined: "
     +:+ colorTransactionHash W hash).
  assert (deploy W this contract args s
          = (Throw e,
             State h3
               (trace s ++
                [EvLog l1; EvSend (wallet this) tx;
                 EvLog ("Waiting for transaction to be included in block and mined: "
                        +:+ colorTransactionHash W hash);
                 EvWait (provider this) hash]))) as Hd.
  { rewrite deploy_from_sent, run_bind, Hsent, run_bind.
    rewrite (wait_run W this transaction s2 hash Hhash Hp), Hwait. simpl.
    by rewrite T2, <- app_assoc. }
  split; [exact Hd |].
  unfold submissions, receipts. rewrite Hd. simpl.
  by erewrite events_since_app by reflexivity.
Qed.

Lemma wait_failure_propagates_run :
  ∃ tx l1 l2,
    deploy Faulty.stalling (Sample.deployer (VRef 4%positive)) (VRef 3%positive) []
      Sample.start
    = (Throw (Rejected (VStr "timeout")),
       State (heap (deploy_until_sent Faulty.stalling
                      (Sample.deployer (VRef 4%positive)) (VRef 3%positive) []
                      Sample.start).2)
         (trace Sample.start ++
          [EvLog l1; EvSend (wallet (Sample.deployer (VRef 4%positive))) tx;
           EvLog l2;
           EvWait (provider (Sample.deployer (VRef 4%positive))) (VStr "0x7e57")]))
    ∧ submissions Faulty.stalling (Sample.deployer (VRef 4%positive))
        (VRef 3%positive) [] Sample.start = 1%nat
    ∧ receipts Faulty.stalling (Sample.deployer (VRef 4%positive))
        (VRef 3%positive) [] Sample.start = 0%nat.
Proof.
  apply (wait_failure_propagates Faulty.stalling (Sample.deployer (VRef 4%positive))
           (VRef 3%positive) [] Sample.start (VRef 9%positive)
           (deploy_until_sent Faulty.stalling (Sample.deployer (VRef 4%positive))
              (VRef 3%positive) [] Sample.start).2).
  - vm_compute. reflexivity.
  - vm_compute. reflexivity.
  - reflexivity.
  - vm_compute. reflexivity.
Defined.

(** X10. Two deployers built on one wallet share it. The second
    construction succeeds like the first and re-points the wallet's
    provider: afterwards both deployers hold the same wallet reference, the
    wallet's provider is the second one, and the first deployer still keeps
    the first provider in its own field. The store is the one a single
    construction with the second provider leaves. *)
Theorem constructors_share_wallet (w p1 o1 p2 o2 : value) (s : state) :
  instanceof_Wallet (heap s) w = true →
  ∃ lw d1 d2 s2,
    w = VRef lw
    ∧ (d1 ← constructor w p1 o1; d2 ← constructor w p2 o2; ret (d1, d2)) s
      = (Ret (d1, d2), s2)
    ∧ wallet d1 = w ∧ wallet d2 = w
    ∧ provider d1 = p1 ∧ provider d2 = p2
    ∧ read_field (heap s2) (wallet d1) "provider" = Ret p2
    ∧ s2 = (constructor w p2 o2 s).2.
Proof.
  intros Hw. destruct w as [| |b|n|str|lw]; try discriminate Hw.
  assert (∀ p o h tr,
            is_wallet (heap_get h lw) = true →
            constructor (VRef lw) p o (State h tr)
            = (Ret {| wallet := VRef lw; provider := p; defaultOverrides := o |},
               State (store_field h lw "provider" p) tr)) as Hc.
  { intros p o h tr Hi. unfold constructor. simpl. by rewrite Hi. }
  destruct s as [h tr]. simpl in Hw.
  exists lw, {| wallet := VRef lw; provider := p1; defaultOverrides := o1 |},
    {| wallet := VRef lw; provider := p2; defaultOverrides := o2 |},
    (State (store_field h lw "provider" p2) tr).
  split; [done |]. split.
  { rewrite run_bind, (Hc p1 o1 h tr Hw), run_bind.
    rewrite (Hc p2 o2); [| by rewrite is_wallet_store_field].
    by rewrite store_field_twice. }
  do 4 (split; [done |]). split.
  - cbn [wallet heap]. rewrite read_field_ref, own_field_store_field.
    by rewrite decide_True.
  - by rewrite (Hc p2 o2 h tr Hw).
Qed.

(** The wallet of the caller, shared by a deployer for the provider at 2
    and one for the object at 5. *)
Lemma constructors_share_wallet_run :
  ∃ lw d1 d2 s2,
    VRef 1%positive = VRef lw
    ∧ (d1 ← constructor (VRef 1%positive) (VRef 2%positive) VUndefined;
       d2 ← constructor (VRef 1%positive) (VRef 5%positive) (VRef 4%positive);
       ret (d1, d2)) Sample.start
      = (Ret (d1, d2), s2)
    ∧ wallet d1 = VRef 1%positive ∧ wallet d2 = VRef 1%positive
    ∧ provider d1 = VRef 2%positive ∧ provider d2 = VRef 5%positive
    ∧ read_field (heap s2) (wallet d1) "provider" = Ret (VRef 5%positive)
    ∧ s2 = (constructor (VRef 1%positive) (VRef 5%positive) (VRef 4%positive)
              Sample.start).2.
Proof.
  apply (constructors_share_wallet (VRef 1%positive) (VRef 2%positive) VUndefined
           (VRef 5%positive) (VRef 4%positive) Sample.start).
  reflexivity.
Defined.

(** X12. A transaction that is not an object cannot take an override. With
    overrides that can be read and compared with zero, the apply-overrides
    step then fails with a TypeError exactly when one of the two overrides
    is above zero, and otherwise returns the value as it is; either way the
    store is untouched. *)
Theorem override_on_non_object (W : World) (this : Deployer) (tx : value)
    (s : state) (gp gl : value) (np nl : number) :
  (∀ l, tx ≠ VRef l) →
  read_field (heap s) (defaultOverrides this) "gasPrice" = Ret gp →
  read_field (heap s) (defaultOverrides this) "gasLimit" = Ret gl →
  ToNumber W gp = Ret np →
  ToNumber W gl = Ret nl →
  _overrideDeployTransactionConfig W this tx s
  = (if gt_zero W gp || gt_zero W gl then Throw TypeError else Ret tx, s).
Proof.
  intros Hn Hgp Hgl Hnp Hnl. rewrite override_steps.
  destruct (strict_eq (defaultOverrides this) VUndefined) eqn:Hu.
  { apply strict_eq_undefined in Hu. by rewrite Hu in Hgp. }
  rewrite run_bind, (apply_gas_not_ref_readable W this tx _ s gp Hn Hgp), Hnp.
  destruct (gt_zero W gp); [done |].
  rewrite run_bind, (apply_gas_not_ref_readable W this tx _ s gl Hn Hgl), Hnl.
  by destruct (gt_zero W gl).
Qed.

(** No transaction at all, with the overrides [{gasPrice: 5, gasLimit: 0}],
    and a string for a transaction, with a BigNumber for the gasPrice. *)
Lemma override_on_non_object_run :
  _overrideDeployTransactionConfig (Sample.world 1) (Sample.deployer (VRef 4%positive))
    VUndefined Sample.start
  = (if gt_zero (Sample.world 1) (VNum (Int 5))
        || gt_zero (Sample.world 1) (VNum (Int 0))
     then Throw TypeError else Ret VUndefined, Sample.start)
  ∧ _overrideDeployTransactionConfig Numeric.world (Sample.deployer (VRef 21%positive))
      (VStr "abc") Numeric.start
    = (if gt_zero Numeric.world (VRef 20%positive)
          || gt_zero Numeric.world (VNum (Int 0))
       then Throw TypeError else Ret (VStr "abc"), Numeric.start).
Proof.
  split.
  - apply (override_on_non_object (Sample.world 1) (Sample.deployer (VRef 4%positive))
             VUndefined Sample.start (VNum (Int 5)) (VNum (Int 0)) (Int 5) (Int 0)).
    + discriminate.
    + vm_compute. reflexivity.
    + vm_compute. reflexivity.
    + reflexivity.
    + reflexivity.
  - apply (override_on_non_object Numeric.world (Sample.deployer (VRef 21%positive))
             (VStr "abc") Numeric.start (VRef 20%positive) (VNum (Int 0))
             (Int 5) (Int 0)).
    + discriminate.
    + vm_compute. reflexivity.
    + vm_compute. reflexivity.
    + reflexivity.
    + reflexivity.
Defined.

(** X13. When the provider fails to deliver the receipt, [deploy] fails
    with the provider's error, unchanged, and logs no address: the last
    event is the one call for the receipt, after one submission. *)
Theorem receipt_failure_propagates (W : World) (this : Deployer)
    (contract : value) (args : list value) (s : state)
    (transaction : value) (s2 s3 : state) (hash : value) (e : error)
    (h4 : gmap loc obj) :
  deploy_until_sent W this contract args s = (Ret transaction, s2) →
  _waitForDeployTransaction W this transaction s2 = (Ret tt, s3) →
  read_field (heap s3) transaction "hash" = Ret hash →
  nullish (provider this) = false →
  getTransactionReceipt W (provider this) hash (heap s3) = (Throw e, h4) →
  deploy W this contract args s
  = (Throw e, State h4 (trace s3 ++ [EvReceipt (provider this) hash]))
  ∧ submissions W this contract args s = 1%nat
  ∧ receipts W this contract args s = 1%nat.
Proof.
  intros Hsent Hwait Hh Hp Hfetch.
  assert (deploy W this contract args s
          = (Throw e, State h4 (trace s3 ++ [EvReceipt (provider this) hash]))) as Hd.
  { rewrite deploy_from_sent, run_bind, Hsent, run_bind, Hwait, run_bind.
    by rewrite (receipt_run W this transaction s3 hash Hh Hp), Hfetch. }
  split; [exact Hd |].
  destruct (stopped_after_submission W _ _ _ _ _ _ Hsent) as [Hs _].
  split; [exact Hs |].
  unfold receipts. rewrite Hd. simpl.
  destruct (until_sent_ret W _ _ _ _ _ _ Hsent) as (tx & s1 & l1 & _ & _ & _ & _ & T2).
  destruct (quiet_waitForDeployTransaction W this transaction s2)
    as (evs & T3 & _ & R3).
  rewrite Hwait in T3. simpl in T3.
  erewrite events_since_app; [| simpl; by rewrite T3, T2, <- !app_assoc].
  by rewrite !count_events_app, R3.
Qed.

Lemma receipt_failure_propagates_run :
  deploy Faulty.losing (Sample.deployer (VRef 4%positive)) (VRef 3%positive) []
    Sample.start
  = (Throw (Rejected (VStr "network error")),
     State (heap (deploy_until_sent Faulty.losing (Sample.deployer (VRef 4%positive))
                    (VRef 3%positive) [] Sample.start).2)
       (trace (_waitForDeployTransaction Faulty.losing
                 (Sample.deployer (VRef 4%positive)) (VRef 9%positive)
                 (deploy_until_sent Faulty.losing (Sample.deployer (VRef 4%positive))
                    (VRef 3%positive) [] Sample.start).2).2
        ++ [EvReceipt (provider (Sample.deployer (VRef 4%positive))) (VStr "0x7e57")]))
  ∧ submissions Faulty.losing (Sample.deployer (VRef 4%positive)) (VRef 3%positive) []
      Sample.start = 1%nat
  ∧ receipts Faulty.losing (Sample.deployer (VRef 4%positive)) (VRef 3%positive) []
      Sample.start = 1%nat.
Proof.
  apply (receipt_failure_propagates Faulty.losing (Sample.deployer (VRef 4%positive))
           (VRef 3%positive) [] Sample.start (VRef 9%positive)
           (deploy_until_sent Faulty.losing (Sample.deployer (VRef 4%positive))
              (VRef 3%positive) [] Sample.start).2).
  - vm_compute. reflexivity.
  - vm_compute. reflexivity.
  - vm_compute. reflexivity.
  - reflexivity.
  - vm_compute. reflexivity.
Defined.
